(** * data-visibility: the CSV loader and the chart aggregations of [main.js]

    A shallow embedding of [fetchCsvData], [drawMapChart] and [drawBarChart]
    together with the ECMAScript operations they call, followed by the
    properties of the specification.

    Strings.  A JavaScript string coming out of [response.text()] is
    well-formed Unicode; it is represented here by its UTF-8 bytes, as a
    [string].  Splitting on an ASCII character, deleting an ASCII character and
    searching for a well-formed substring commute with that encoding, and the
    white space of [String.prototype.trim] is recognised on the encoded
    form. *)

From Stdlib Require Import String Ascii List Bool Arith NArith ZArith Lia.
From Stdlib Require Import Permutation DecimalString SpecFloat.
Import ListNotations.

Local Open Scope list_scope.
Local Open Scope nat_scope.
Local Open Scope string_scope.

(** ** ECMAScript strings *)

Module JsString.

(** The double quote character, code unit 34. *)
Definition dquote : ascii := ascii_of_nat 34.
Definition comma : ascii := ascii_of_nat 44.
Definition newline : ascii := ascii_of_nat 10.

(** White space and line terminators of one byte:
    TAB, LF, VT, FF, CR and SPACE. *)
Definition isWs1 (c : ascii) : bool :=
  match nat_of_ascii c with
  | 9 | 10 | 11 | 12 | 13 | 32 => true
  | _ => false
  end.

(** U+00A0 NO-BREAK SPACE is [C2 A0]. *)
Definition isWs2 (c1 c2 : ascii) : bool :=
  ((nat_of_ascii c1 =? 194) && (nat_of_ascii c2 =? 160))%nat.

(** The white space of three bytes: U+1680, U+2000..U+200A, U+2028, U+2029,
    U+202F, U+205F, U+3000 and U+FEFF. *)
Definition isWs3 (c1 c2 c3 : ascii) : bool :=
  let b1 := nat_of_ascii c1 in
  let b2 := nat_of_ascii c2 in
  let b3 := nat_of_ascii c3 in
  (((b1 =? 225) && (b2 =? 154) && (b3 =? 128))
   || ((b1 =? 226) && (b2 =? 128)
       && (((128 <=? b3) && (b3 <=? 138))
           || (b3 =? 168) || (b3 =? 169) || (b3 =? 175)))
   || ((b1 =? 226) && (b2 =? 129) && (b3 =? 159))
   || ((b1 =? 227) && (b2 =? 128) && (b3 =? 128))
   || ((b1 =? 239) && (b2 =? 187) && (b3 =? 191)))%nat.

(** Drops the white space at the head of a byte sequence.  With
    [backwards] the sequence is read from its last byte, so the bytes of a
    character arrive in reverse. *)
Fixpoint dropWs (backwards : bool) (l : list ascii) : list ascii :=
  match l with
  | [] => []
  | c1 :: l1 =>
      if isWs1 c1 then dropWs backwards l1
      else
        match l1 with
        | [] => l
        | c2 :: l2 =>
            if (if backwards then isWs2 c2 c1 else isWs2 c1 c2)
            then dropWs backwards l2
            else
              match l2 with
              | [] => l
              | c3 :: l3 =>
                  if (if backwards then isWs3 c3 c2 c1 else isWs3 c1 c2 c3)
                  then dropWs backwards l3
                  else l
              end
        end
  end.

(** A byte sequence made of white space only. *)
Inductive Blank : list ascii -> Prop :=
| Blank_nil : Blank []
| Blank_1 c l : isWs1 c = true -> Blank l -> Blank (c :: l)
| Blank_2 c1 c2 l :
    isWs2 c1 c2 = true -> Blank l -> Blank (c1 :: c2 :: l)
| Blank_3 c1 c2 c3 l :
    isWs3 c1 c2 c3 = true -> Blank l -> Blank (c1 :: c2 :: c3 :: l).

Definition blank (s : string) : Prop := Blank (list_ascii_of_string s).

(** The same as a test: nothing is left once the white space is
    dropped. *)
Definition isBlank (s : string) : bool :=
  match dropWs false (list_ascii_of_string s) with
  | [] => true
  | _ :: _ => false
  end.

(** [String.prototype.trimStart], [trimEnd] and [trim]. *)
Definition trimStart (s : string) : string :=
  string_of_list_ascii (dropWs false (list_ascii_of_string s)).

Definition trimEnd (s : string) : string :=
  string_of_list_ascii
    (rev (dropWs true (rev (list_ascii_of_string s)))).

Definition trim (s : string) : string := trimEnd (trimStart s).

(** [s.split(sep)] for a separator of one character: the result is never
    empty, and the empty string splits into one empty piece. *)
Fixpoint split (sep : ascii) (s : string) : list string :=
  match s with
  | EmptyString => [EmptyString]
  | String c rest =>
      if Ascii.eqb c sep then EmptyString :: split sep rest
      else
        match split sep rest with
        | piece :: pieces => String c piece :: pieces
        | [] => [String c EmptyString]
        end
  end.

(** [s.replace(re, '')] where [re] is the global pattern of one double
    quote: every double quote is deleted. *)
Fixpoint removeQuotes (s : string) : string :=
  match s with
  | EmptyString => EmptyString
  | String c rest =>
      if Ascii.eqb c dquote then removeQuotes rest
      else String c (removeQuotes rest)
  end.

(** One line feed, and one double quote, as strings. *)
Definition lf : string := String newline EmptyString.
Definition quote : string := String dquote EmptyString.

(** [hay.includes(needle)]. *)
Fixpoint includes (hay needle : string) : bool :=
  String.prefix needle hay
  || match hay with
     | EmptyString => false
     | String _ rest => includes rest needle
     end.

End JsString.

(** ** Numbers

    A Number is an IEEE 754 binary64 value, here a [spec_float] at precision
    53 with [emax = 1024]; products are rounded by [SFmul]. *)

Module JsNumber.

Definition prec : Z := 53.
Definition emax : Z := 1024.

Definition number := spec_float.

Definition mul (x y : number) : number := SFmul prec emax x y.

(** The Number of a non-negative integer. *)
Definition ofN (n : N) : number :=
  match n with
  | N0 => S754_zero false
  | Npos p => binary_round prec emax false p 0
  end.

(** The Number nearest to [m * 10 ^ e10], ties to even, with the sign
    [neg]: the value of a decimal literal. *)
Definition ofDecimal (neg : bool) (m : N) (e10 : Z) : number :=
  match m with
  | N0 => S754_zero neg
  | Npos p =>
      match e10 with
      | Zneg k =>
          let '(quo, e, loc) :=
            SFdiv_core_binary prec emax (Zpos p) 0 (Z.pow_pos 10 k) 0 in
          binary_round_aux prec emax neg quo e loc
      | _ => binary_round prec emax neg (p * Z.to_pos (10 ^ e10)) 0
      end
  end.

Definition digitOf (c : ascii) : option N :=
  let n := N_of_ascii c in
  if ((48 <=? n) && (n <=? 57))%N then Some (n - 48)%N else None.

(** Reads the longest run of decimal digits: its value on top of [acc],
    how many digits were read, and the rest of the text. *)
Fixpoint takeDigits (acc : N) (count : nat) (s : string)
  : N * nat * string :=
  match s with
  | EmptyString => (acc, count, s)
  | String c rest =>
      match digitOf c with
      | Some d => takeDigits (10 * acc + d)%N (S count) rest
      | None => (acc, count, s)
      end
  end.

Definition takeSign (s : string) : bool * string :=
  match s with
  | String c rest =>
      if Ascii.eqb c "-" then (true, rest)
      else if Ascii.eqb c "+" then (false, rest)
      else (false, s)
  | EmptyString => (false, s)
  end.

(** The value of an ExponentPart at the head of [s], 0 when there is
    none. *)
Definition exponentPart (s : string) : Z :=
  match s with
  | String c rest =>
      if Ascii.eqb c "e" || Ascii.eqb c "E" then
        let '(neg, rest') := takeSign rest in
        let '(ev, count, _) := takeDigits 0 0 rest' in
        if (count =? 0)%nat then 0%Z
        else if neg then (- Z.of_N ev)%Z else Z.of_N ev
      else 0%Z
  | EmptyString => 0%Z
  end.

(** [parseFloat]: leading white space is skipped, the longest prefix that
    is a StrDecimalLiteral is read, and [NaN] is returned when there is
    none. *)
Definition parseFloat (input : string) : number :=
  let '(neg, s1) := takeSign (JsString.trimStart input) in
  if String.prefix "Infinity" s1 then S754_infinity neg
  else
    let '(ip, ni, s2) := takeDigits 0 0 s1 in
    let '(m, nf, s3) :=
      match s2 with
      | String c rest =>
          if Ascii.eqb c "." then takeDigits ip 0 rest else (ip, 0, s2)
      | EmptyString => (ip, 0, s2)
      end in
    if (ni + nf =? 0)%nat then S754_nan
    else ofDecimal neg m (exponentPart s3 - Z.of_nat nf).

(** The decimal digits of a natural number. *)
Definition digits (n : N) : string := NilZero.string_of_uint (N.to_uint n).

Fixpoint zeros (n : nat) : string :=
  match n with
  | O => EmptyString
  | S n' => String "0" (zeros n')
  end.

(** [Number::toString] above [10 ^ 21], where the value is an integer [x]
    of [d] digits.  At [k] significant digits the two decimal numbers next
    to [x] are tried: one that reads back as the same Number is kept, the
    nearer one of two, the one with an even last digit on a tie. *)
Definition candidate (x : positive) (d k : nat) : option Z :=
  let scale := (10 ^ Z.of_nat (d - k))%Z in
  let lo := (Zpos x / scale)%Z in
  let hi := (lo + 1)%Z in
  let back n := SFeqb (binary_normalize prec emax (n * scale) 0 false)
                      (binary_round prec emax false x 0) in
  let below := (Zpos x - lo * scale)%Z in
  let above := (hi * scale - Zpos x)%Z in
  match back lo, back hi with
  | true, true =>
      if (below <? above)%Z then Some (lo * scale)%Z
      else if (above <? below)%Z then Some (hi * scale)%Z
      else if Z.even lo then Some (lo * scale)%Z else Some (hi * scale)%Z
  | true, false => Some (lo * scale)%Z
  | false, true => Some (hi * scale)%Z
  | false, false => None
  end.

(** The decimal number with the fewest significant digits, among the
    numbers of digits [ks] taken in order. *)
Fixpoint shortest (x : positive) (d : nat) (ks : list nat) : Z :=
  match ks with
  | [] => Zpos x
  | k :: ks' =>
      match candidate x d k with
      | Some v => v
      | None => shortest x d ks'
      end
  end.

Fixpoint dropZeros (l : list ascii) : list ascii :=
  match l with
  | c :: l' => if Ascii.eqb c "0" then dropZeros l' else l
  | [] => []
  end.

(** The digits without the zeros at their end. *)
Definition stripZeros (s : string) : string :=
  string_of_list_ascii (rev (dropZeros (rev (list_ascii_of_string s)))).

(** Exponent notation: one digit, the point and the other digits when
    there are any, and the exponent. *)
Definition toStringLarge (x : positive) : string :=
  let d := String.length (digits (Npos x)) in
  let all := digits (Z.to_N (shortest x d (seq 1 17))) in
  let ds := match stripZeros all with
            | EmptyString => "0"
            | String c EmptyString => String c EmptyString
            | String c rest => String c (String "." rest)
            end in
  ds ++ "e+" ++ digits (N.of_nat (String.length all - 1)).

(** The decimal digits of [n] with a point before the last two, zeros
    being put in front of fewer than three digits. *)
Definition fixed2 (n : N) : string :=
  let ds := digits n in
  let ds := (zeros (3 - String.length ds) ++ ds)%string in
  let k := String.length ds in
  String.substring 0 (k - 2) ds ++ "." ++ String.substring (k - 2) 2 ds.

(** The magnitude of a finite Number times 100, as a fraction
    [num / den]. *)
Definition scaled (m : positive) (e : Z) : Z * Z :=
  match e with
  | Zpos p => (Zpos m * Z.pow_pos 2 p * 100, 1)%Z
  | Zneg p => (Zpos m * 100, Z.pow_pos 2 p)%Z
  | Z0 => (Zpos m * 100, 1)%Z
  end.

(** The magnitude is at least [10 ^ 21], where [toFixed] falls back on
    [toString]. *)
Definition large (m : positive) (e : Z) : bool :=
  let '(num, den) := scaled m e in (10 ^ 23 * den <=? num)%Z.

(** [x.toFixed(2)]. *)
Definition toFixed2 (x : number) : string :=
  match x with
  | S754_nan => "NaN"
  | S754_infinity false => "Infinity"
  | S754_infinity true => "-Infinity"
  | S754_zero _ => "0.00"
  | S754_finite neg m e =>
      let sign := if neg then "-" else "" in
      let '(num, den) := scaled m e in
      if large m e
      then sign ++ toStringLarge (Z.to_pos (num / 100))
      else
        (* the integer nearest to the magnitude times 100, the larger one
           on a tie *)
        sign ++ fixed2 (Z.to_N ((2 * num + den) / (2 * den)))
  end.

End JsNumber.

(** ** Ordinary objects

    An object made by [{}] has its own properties, kept in creation order,
    and inherits from [Object.prototype].  Only primitive values are ever
    stored by this program, for which an assignment to [__proto__] runs the
    inherited setter and does nothing. *)

Module JsObject.

Section Own.
Context {V : Type}.

Definition t := list (string * V).

Definition empty : t := [].

Fixpoint own_get (k : string) (o : t) : option V :=
  match o with
  | [] => None
  | (k', v) :: rest => if String.eqb k k' then Some v else own_get k rest
  end.

(** Defines or overwrites an own data property; a new key goes last. *)
Fixpoint own_put (k : string) (v : V) (o : t) : t :=
  match o with
  | [] => [(k, v)]
  | (k', v') :: rest =>
      if String.eqb k k' then (k', v) :: rest
      else (k', v') :: own_put k v rest
  end.

(** [o[k] = v] for a primitive [v]. *)
Definition set (k : string) (v : V) (o : t) : t :=
  if String.eqb k "__proto__" then o else own_put k v o.

Definition own_keys (o : t) : list string := map fst o.
End Own.

Arguments t : clear implicits.

(** The properties of [Object.prototype] in a browser, [__proto__]
    apart. *)
Definition prototype_functions : list string :=
  [ "constructor"; "__defineGetter__"; "__defineSetter__";
    "hasOwnProperty"; "__lookupGetter__"; "__lookupSetter__";
    "isPrototypeOf"; "propertyIsEnumerable"; "toString"; "valueOf";
    "toLocaleString" ].

Definition inherited (k : string) : bool :=
  String.eqb k "__proto__"
  || existsb (String.eqb k) prototype_functions.

(** An array index is the canonical decimal text of an integer below
    [2 ^ 32 - 1]. *)
Definition arrayIndex (k : string) : option N :=
  let '(n, count, rest) := JsNumber.takeDigits 0 0 k in
  if String.eqb rest "" && negb (count =? 0)%nat
     && String.eqb (JsNumber.digits n) k && (n <=? 4294967294)%N
  then Some n else None.

Section Entries.
Context {V : Type}.

Fixpoint insertIndexed (i : N) (kv : string * V)
         (l : list (N * (string * V))) : list (N * (string * V)) :=
  match l with
  | [] => [(i, kv)]
  | (j, kv') :: rest =>
      if (i <? j)%N then (i, kv) :: l
      else (j, kv') :: insertIndexed i kv rest
  end.

Definition indexed (o : t V) : list (N * (string * V)) :=
  fold_right (fun kv acc =>
                match arrayIndex (fst kv) with
                | Some i => insertIndexed i kv acc
                | None => acc
                end) [] o.

(** [Object.entries(o)]: the array indices in ascending order, then the
    other keys in creation order. *)
Definition entries (o : t V) : list (string * V) :=
  map snd (indexed o)
  ++ filter (fun kv => match arrayIndex (fst kv) with
                       | Some _ => false
                       | None => true
                       end) o.
End Entries.

End JsObject.

(** ** The CSV loader: [fetchCsvData] *)

Import JsString.

(** A parsed record: column name to cell text. *)
Definition Row := JsObject.t string.

Inductive error :=
| NetworkError   (* [fetch] rejected *)
| TypeError.     (* [lines[headerLineIndex]] is [undefined] *)

Definition result (A : Type) := (error + A)%type.

Definition headerLineIndex (url : string) : nat :=
  if includes url "summary.csv" then 2 else 0.

(** [f.trim()] followed by the deletion of the double quotes. *)
Definition cleanField (f : string) : string := removeQuotes (trim f).

(** Follows the words of the specification, to be compared with
    [cleanField]: the quote characters that surround a field are stripped,
    and the field is trimmed first. *)
Definition stripSurroundingQuotes (s : string) : string :=
  match list_ascii_of_string s with
  | c :: rest =>
      match rev rest with
      | c' :: inner =>
          if Ascii.eqb c dquote && Ascii.eqb c' dquote
          then string_of_list_ascii (rev inner)
          else s
      | [] => s
      end
  | [] => s
  end.

Definition specField (raw : string) : string :=
  stripSurroundingQuotes (trim raw).

(** The field holds no double quote. *)
Definition unquoted (s : string) : Prop :=
  ~ In dquote (list_ascii_of_string s).

(** Follows the words of the specification, to be compared with the
    comma split of [fields]: the field count of a line of well-formed CSV,
    where a comma between double quotes does not separate. *)
Fixpoint csvCommas (inQuotes : bool) (s : string) : nat :=
  match s with
  | EmptyString => 0
  | String c rest =>
      if Ascii.eqb c dquote then csvCommas (negb inQuotes) rest
      else if Ascii.eqb c comma && negb inQuotes
           then S (csvCommas inQuotes rest)
           else csvCommas inQuotes rest
  end.

Definition csvFieldCount (line : string) : nat := S (csvCommas false line).

(** [line.split(',')] mapped through [cleanField]. *)
Definition fields (line : string) : list string :=
  map cleanField (split comma line).

(** The callback of [headers.forEach], on a header and the value at its
    index. *)
Definition setPair (row : Row) (hv : string * string) : Row :=
  JsObject.set (fst hv) (snd hv) row.

(** The [forEach] over the headers, run when both arrays have one length. *)
Definition buildRow (headers values : list string) : Row :=
  fold_left setPair (combine headers values) JsObject.empty.

(** The [for] loop over the lines after the header line. *)
Fixpoint collectRows (headers : list string) (lines : list string)
  : list Row :=
  match lines with
  | [] => []
  | line :: rest =>
      let values := fields line in
      if (List.length values =? List.length headers)%nat
      then buildRow headers values :: collectRows headers rest
      else collectRows headers rest
  end.

Definition parseLines (headerLine : nat) (lines : list string)
  : result (list Row) :=
  match nth_error lines headerLine with
  | None => inl TypeError
  | Some h => inr (collectRows (fields h) (skipn (S headerLine) lines))
  end.

(** [text.trim().split(newline)] *)
Definition textLines (text : string) : list string :=
  split newline (trim text).

(** The body of [.then(text => ...)]. *)
Definition parseCsv (url text : string) : result (list Row) :=
  parseLines (headerLineIndex url) (textLines text).

Section Fetch.
(** The resource store behind [fetch]: [None] when the request fails. *)
Variable fetch : string -> option string.

Definition fetchCsvData (url : string) : result (list Row) :=
  match fetch url with
  | None => inl NetworkError
  | Some text => parseCsv url text
  end.
End Fetch.

(** ** The aggregations of the charts *)

(** The values that [countryCounts] can hold or inherit. *)
Inductive jsval :=
| VUndefined
| VNumber (n : N)
| VString (s : string)
| VBuiltin (key : string)   (* the function found at [Object.prototype[key]] *)
| VObjectPrototype.          (* what the [__proto__] getter returns *)

Section MapChart.
(** The source text an engine prints for the built-in function stored at
    a key of [Object.prototype]; its wording is left to the engine. *)
Variable sourceText : string -> string.

(** What [Object.prototype] answers for a key. *)
Definition inheritedValue (k : string) : jsval :=
  if String.eqb k "__proto__" then VObjectPrototype
  else if existsb (String.eqb k) JsObject.prototype_functions
       then VBuiltin k
       else VUndefined.

(** [acc[k]]: an own property, else an inherited one, else [undefined]. *)
Definition getCount (k : string) (acc : JsObject.t jsval) : jsval :=
  match JsObject.own_get k acc with
  | Some v => v
  | None => inheritedValue k
  end.

(** [(v || 0) + 1].  A count stays far below [2 ^ 53], an array having
    less than [2 ^ 32] elements, so the addition is exact; on a string, a
    function or an object [+] concatenates. *)
Definition increment (v : jsval) : jsval :=
  match v with
  | VUndefined => VNumber 1
  | VNumber n => if (n =? 0)%N then VNumber 1 else VNumber (n + 1)
  | VString s => if String.eqb s "" then VNumber 1 else VString (s ++ "1")
  | VBuiltin k => VString (sourceText k ++ "1")
  | VObjectPrototype => VString "[object Object]1"
  end.

(** [row[k]] for the three columns the program reads, none of which is a
    property of [Object.prototype]; [None] is [undefined]. *)
Definition cell (k : string) (row : Row) : option string :=
  JsObject.own_get k row.

(** The callback of [data.reduce]. *)
Definition countStep (acc : JsObject.t jsval) (row : Row)
  : JsObject.t jsval :=
  match cell "国家" row with
  | Some country =>
      if String.eqb country "" then acc
      else JsObject.set country (increment (getCount country acc)) acc
  | None => acc
  end.

Definition countryCounts (data : list Row) : JsObject.t jsval :=
  fold_left countStep data JsObject.empty.
End MapChart.

(** The row carries the category [k] in the column that is counted. *)
Definition carries (k : string) (row : Row) : bool :=
  match cell "国家" row with
  | Some country => String.eqb country k
  | None => false
  end.

(** The number of rows that carry [k]. *)
Fixpoint occurrences (k : string) (data : list Row) : nat :=
  match data with
  | [] => 0
  | row :: rest => (if carries k row then 1 else 0) + occurrences k rest
  end.

(** The step of the reduction writes the key of the row, unless the key is
    empty or is [__proto__]. *)
Definition counted (k : string) (row : Row) : bool :=
  carries k row && negb (String.eqb k "")
  && negb (String.eqb k "__proto__").

Fixpoint countedRows (k : string) (data : list Row) : nat :=
  match data with
  | [] => 0
  | row :: rest => (if counted k row then 1 else 0) + countedRows k rest
  end.

(** One more counted row at a key: the stored value after it, from the own
    value before it. *)
Definition bump (sourceText : string -> string) (k : string)
           (own : option jsval) : option jsval :=
  Some (increment sourceText
          (match own with
           | Some v => v
           | None => inheritedValue k
           end)).

(** The chain of [includes] tests of [drawMapChart]. *)
Definition mapName (country : string) : string :=
  if includes country "中国" then "China"
  else if includes country "美国" then "United States"
  else if includes country "日本" then "Japan"
  else country.

Record mapItem := { name : string; value : jsval }.

(** [Object.entries(countryCounts).map(...)], the series handed to the
    chart. *)
Definition mapData (counts : JsObject.t jsval) : list mapItem :=
  map (fun kv => {| name := mapName (fst kv); value := snd kv |})
      (JsObject.entries counts).

(** ** The bar chart: labels and scaled rates *)

Definition industries (data : list Row) : list (option string) :=
  map (cell "行业(个人观点)") data.

(** The text [parseFloat] receives for a cell: [undefined] is converted to
    a string first. *)
Definition cellText (c : option string) : string :=
  match c with
  | Some s => s
  | None => "undefined"
  end.

Definition profitRate (row : Row) : string :=
  JsNumber.toFixed2
    (JsNumber.mul (JsNumber.parseFloat (cellText (cell "平均利润率" row)))
                  (JsNumber.ofN 100)).

Definition avgProfitRates (data : list Row) : list string :=
  map profitRate data.

(** ** The two pipelines

    What each chart hands to [setOption] as its data, from the resource
    store. *)

Section Charts.
Variable fetch : string -> option string.
Variable sourceText : string -> string.

Definition drawMapChart : result (list mapItem) :=
  match fetchCsvData fetch "data/world_500.csv" with
  | inl e => inl e
  | inr data => inr (mapData (countryCounts sourceText data))
  end.

Definition drawBarChart : result (list (option string) * list string) :=
  match fetchCsvData fetch "data/summary.csv" with
  | inl e => inl e
  | inr data => inr (industries data, avgProfitRates data)
  end.
End Charts.

(** ** Measures of the aggregations *)

(** The number a stored value stands for; a value that is not a number
    counts for nothing. *)
Definition countOf (v : jsval) : N :=
  match v with
  | VNumber n => n
  | _ => 0%N
  end.

(** The sum of the counts of an accumulator. *)
Definition total (counts : JsObject.t jsval) : N :=
  fold_right (fun kv s => (countOf (snd kv) + s)%N) 0%N counts.

(** The row has a category, and it is not empty. *)
Definition categorised (row : Row) : bool :=
  match cell "国家" row with
  | Some country => negb (String.eqb country "")
  | None => false
  end.

(** No category of the data is a property name of [Object.prototype]. *)
Definition plainCategories (data : list Row) : Prop :=
  Forall (fun row => match cell "国家" row with
                     | Some country => JsObject.inherited country = false
                     | None => True
                     end) data.

(** The value is a count: a number, and not zero. *)
Definition isCount (v : jsval) : Prop :=
  exists n, v = VNumber n /\ n <> 0%N.

(** The second line is the first one with white space put behind it. *)
Definition paddedLine (l l' : string) : Prop :=
  exists w, isBlank w = true /\ l' = (l ++ w)%string.

(** The key the reduction writes for a row: the category cell, when it is
    there, is not empty and is not [__proto__]. *)
Definition written (row : Row) : option string :=
  match cell "国家" row with
  | Some country =>
      if String.eqb country "" || String.eqb country "__proto__"
      then None else Some country
  | None => None
  end.

(** The keys the reduction writes, row after row. *)
Fixpoint categories (data : list Row) : list string :=
  match data with
  | [] => []
  | row :: rest =>
      match written row with
      | Some country => country :: categories rest
      | None => categories rest
      end
  end.

(** A list without its repetitions, each element standing where it
    appears first. *)
Fixpoint firstSeen (l : list string) : list string :=
  match l with
  | [] => []
  | k :: rest =>
      k :: filter (fun x => negb (String.eqb x k)) (firstSeen rest)
  end.

(** The key is not among the given ones. *)
Definition unseen (keys : list string) (x : string) : bool :=
  negb (existsb (String.eqb x) keys).

(** The item of the series made from one entry of the counts. *)
Definition itemOf (kv : string * jsval) : mapItem :=
  {| name := mapName (fst kv); value := snd kv |}.

(** * Properties *)

Local Open Scope list_scope.

(** ** Own properties of an object *)

Section OwnFacts.
Context {V : Type}.
Implicit Types (o : JsObject.t V) (k : string) (v : V).

Lemma own_get_put_eq k v o :
  JsObject.own_get k (JsObject.own_put k v o) = Some v.
Proof.
  induction o as [|[k' v'] o IH]; simpl.
  - now rewrite String.eqb_refl.
  - destruct (String.eqb k k') eqn:E; simpl; rewrite E; auto.
Qed.

Lemma own_get_put_ne k k' v o :
  k <> k' ->
  JsObject.own_get k' (JsObject.own_put k v o) = JsObject.own_get k' o.
Proof.
  intros Hne. induction o as [|[k0 v0] o IH]; simpl.
  - destruct (String.eqb_spec k' k); congruence.
  - destruct (String.eqb_spec k k0) as [->|Hk]; simpl.
    + destruct (String.eqb_spec k' k0); congruence.
    + now rewrite IH.
Qed.

Lemma own_get_set_eq k v o :
  k <> "__proto__" -> JsObject.own_get k (JsObject.set k v o) = Some v.
Proof.
  intros Hk. unfold JsObject.set.
  destruct (String.eqb_spec k "__proto__"); [congruence|].
  apply own_get_put_eq.
Qed.

Lemma own_get_set_ne k k' v o :
  k <> k' ->
  JsObject.own_get k' (JsObject.set k v o) = JsObject.own_get k' o.
Proof.
  intros Hk. unfold JsObject.set.
  destruct (String.eqb k "__proto__"); [reflexivity|].
  now apply own_get_put_ne.
Qed.

Lemma own_get_set_proto v o :
  JsObject.own_get "__proto__" (JsObject.set "__proto__" v o)
  = JsObject.own_get "__proto__" o.
Proof. reflexivity. Qed.
End OwnFacts.

(** ** Rows *)

Lemma buildRow_fold headers values :
  buildRow headers values
  = fold_left setPair (combine headers values) JsObject.empty.
Proof. reflexivity. Qed.

(** A header that is assigned, or was there before, is an own key of the
    finished row. *)
Lemma fold_setPair_present (pairs : list (string * string)) (row : Row) h :
  h <> "__proto__" ->
  In h (map fst pairs) \/ JsObject.own_get h row <> None ->
  JsObject.own_get h (fold_left setPair pairs row) <> None.
Proof.
  intros Hh. revert row.
  induction pairs as [|[k v] pairs IH]; simpl; intros row [Hin|Hrow].
  - contradiction.
  - exact Hrow.
  - destruct (string_dec k h) as [->|Hk].
    + apply IH. right. unfold setPair; simpl.
      rewrite own_get_set_eq by assumption. discriminate.
    + destruct Hin as [Hin|Hin]; [contradiction|]. apply IH. now left.
  - apply IH. right. unfold setPair; simpl.
    destruct (string_dec k h) as [->|Hk].
    + rewrite own_get_set_eq by assumption. discriminate.
    + now rewrite own_get_set_ne.
Qed.

(** Whatever a finished row holds was assigned from a pair or was there
    before. *)
Lemma fold_setPair_origin (pairs : list (string * string)) (row : Row) k v :
  JsObject.own_get k (fold_left setPair pairs row) = Some v ->
  In (k, v) pairs \/ JsObject.own_get k row = Some v.
Proof.
  revert row. induction pairs as [|[k0 v0] pairs IH]; simpl; intros row H.
  - now right.
  - destruct (IH _ H) as [Hin|Hrow]; [left; now right|].
    unfold setPair in Hrow; simpl in Hrow.
    destruct (string_dec k0 k) as [->|Hk].
    + unfold JsObject.set in Hrow.
      destruct (String.eqb k "__proto__"); [now right|].
      rewrite own_get_put_eq in Hrow. injection Hrow as ->. left. now left.
    + rewrite own_get_set_ne in Hrow by assumption. now right.
Qed.

Lemma map_fst_combine (A B : Type) (l : list A) (l' : list B) :
  List.length l = List.length l' -> map fst (combine l l') = l.
Proof.
  revert l'. induction l as [|a l IH]; intros [|b l']; simpl; intros H;
    try discriminate; auto.
  f_equal. apply IH. now injection H.
Qed.

Lemma buildRow_has_header headers values h :
  List.length values = List.length headers ->
  In h headers -> h <> "__proto__" ->
  JsObject.own_get h (buildRow headers values) <> None.
Proof.
  intros Hlen Hin Hh. rewrite buildRow_fold.
  apply fold_setPair_present; [assumption|]. left.
  now rewrite map_fst_combine.
Qed.

Lemma buildRow_origin headers values k v :
  JsObject.own_get k (buildRow headers values) = Some v ->
  In k headers /\ In v values.
Proof.
  intros H. rewrite buildRow_fold in H.
  destruct (fold_setPair_origin _ _ _ _ H) as [Hin|Hrow].
  - split; [eapply in_combine_l|eapply in_combine_r]; eassumption.
  - discriminate.
Qed.

(** ** The loop over the data lines *)

Lemma collectRows_app headers l1 l2 :
  collectRows headers (l1 ++ l2)
  = collectRows headers l1 ++ collectRows headers l2.
Proof.
  induction l1 as [|line l1 IH]; simpl; [reflexivity|].
  destruct (_ =? _)%nat; simpl; now rewrite IH.
Qed.

Lemma fields_length line :
  List.length (fields line) = List.length (split comma line).
Proof. unfold fields. apply length_map. Qed.

(** When every line has as many fields as the header, the loop is a
    [map]: one row per line, in the order of the lines. *)
Lemma collectRows_consistent header lines :
  Forall (fun line => List.length (split comma line)
                      = List.length (split comma header)) lines ->
  collectRows (fields header) lines
  = map (fun line => buildRow (fields header) (fields line)) lines.
Proof.
  induction 1 as [|line lines Hline _ IH]; simpl; [reflexivity|].
  rewrite !fields_length, Hline, Nat.eqb_refl. now rewrite IH.
Qed.

Lemma collectRows_In headers lines row :
  In row (collectRows headers lines) ->
  exists line, In line lines
               /\ List.length (fields line) = List.length headers
               /\ row = buildRow headers (fields line).
Proof.
  induction lines as [|line lines IH]; simpl; [contradiction|].
  destruct (Nat.eqb_spec (List.length (fields line)) (List.length headers))
    as [E|E]; simpl.
  - intros [<-|Hin].
    + exists line. auto.
    + destruct (IH Hin) as (l & ? & ? & ?). exists l. auto.
  - intros Hin. destruct (IH Hin) as (l & ? & ? & ?). exists l. auto.
Qed.

Lemma In_skipn (A : Type) (n : nat) (l : list A) (x : A) :
  In x (skipn n l) -> In x l.
Proof.
  revert l. induction n as [|n IH]; intros [|a l]; simpl; auto.
Qed.

Lemma parseLines_found headerLine lines header :
  nth_error lines headerLine = Some header ->
  parseLines headerLine lines
  = inr (collectRows (fields header) (skipn (S headerLine) lines)).
Proof. unfold parseLines. now intros ->. Qed.

(** ** The loader on consistent text *)

(** C1 as stated fails on well-formed CSV with a comma between quotes:
    both lines have two fields, and the comma split finds three pieces in
    the data line, which is dropped. *)
Lemma C1_quoted_comma_line_lost :
  let text := ("name,motto" ++ lf
               ++ quote ++ "Smith, John" ++ quote ++ ",hi")%string in
  map csvFieldCount (textLines text) = [2; 2]
  /\ List.length (skipn 1 (textLines text)) = 1
  /\ parseCsv "data/world_500.csv" text = inr [].
Proof. vm_compute. repeat apply conj; reflexivity. Qed.

(** C1, amended: when every line after the header line, among the lines
    of the trimmed text, splits on commas into as many pieces as the
    header line, the loader returns one row per such line, in the order of
    the lines, and every header name other than [__proto__] is a key of
    every row. *)
Theorem C1_one_row_per_consistent_line url text header :
  nth_error (textLines text) (headerLineIndex url) = Some header ->
  Forall (fun line => List.length (split comma line)
                      = List.length (split comma header))
         (skipn (S (headerLineIndex url)) (textLines text)) ->
  exists rows,
    parseCsv url text = inr rows
    /\ rows = map (fun line => buildRow (fields header) (fields line))
                  (skipn (S (headerLineIndex url)) (textLines text))
    /\ List.length rows
       = List.length (textLines text) - S (headerLineIndex url)
    /\ forall row h,
         In row rows -> In h (fields header) -> h <> "__proto__" ->
         JsObject.own_get h row <> None.
Proof.
  intros Hh Hall. eexists. split; [|split; [reflexivity|split]].
  - unfold parseCsv. rewrite (parseLines_found _ _ _ Hh).
    now rewrite collectRows_consistent.
  - now rewrite length_map, length_skipn.
  - intros row h Hrow Hin Hne.
    apply in_map_iff in Hrow. destruct Hrow as (line & <- & Hline).
    apply buildRow_has_header; auto.
    rewrite !fields_length.
    rewrite Forall_forall in Hall. now apply Hall.
Qed.

Lemma C1_one_row_per_consistent_line_witness :
  exists rows,
    parseCsv "data/world_500.csv" ("a,b" ++ lf ++ "1,2" ++ lf ++ "3,4")%string
    = inr rows
    /\ rows = map (fun line => buildRow (fields "a,b") (fields line))
                  (skipn 1 (textLines ("a,b" ++ lf ++ "1,2" ++ lf ++ "3,4")%string))
    /\ List.length rows
       = List.length (textLines ("a,b" ++ lf ++ "1,2" ++ lf ++ "3,4")%string) - 1
    /\ forall row h,
         In row rows -> In h (fields "a,b") -> h <> "__proto__" ->
         JsObject.own_get h row <> None.
Proof.
  apply (C1_one_row_per_consistent_line
           "data/world_500.csv" ("a,b" ++ lf ++ "1,2" ++ lf ++ "3,4")%string
           "a,b").
  - reflexivity.
  - vm_compute. repeat constructor.
Defined.

(** The values of a consistent row: without a repeated header, each
    header holds the field at its position. *)
Example consistent_rows :
  parseCsv "data/world_500.csv" ("a,b" ++ lf ++ "1,2" ++ lf ++ "3,4")%string
  = inr [ [("a", "1"); ("b", "2")]; [("a", "3"); ("b", "4")] ].
Proof. reflexivity. Qed.

(** A header line that declares the column [__proto__]: the assignment
    [row[header] = values[index]] reaches the setter inherited from
    [Object.prototype], which ignores a string, and the row has no such
    key. *)
Example proto_header_not_a_key :
  parseCsv "data/world_500.csv" ("name,__proto__" ++ lf ++ "Acme,x")%string
  = inr [[("name", "Acme")]].
Proof. reflexivity. Qed.

(** ** Lines of another shape *)

(** C2: a data line whose comma-split field count differs from that of
    the header line adds no row and raises nothing: whatever the text
    is, the loader returns the rows of the lines before it followed by the
    rows of the lines after it, which is what the lines without that line
    give. *)
Theorem C2_mismatched_line_dropped url text pre bad post header :
  textLines text = pre ++ bad :: post ->
  nth_error pre (headerLineIndex url) = Some header ->
  List.length (split comma bad) <> List.length (split comma header) ->
  parseCsv url text
  = inr (collectRows (fields header) (skipn (S (headerLineIndex url)) pre)
         ++ collectRows (fields header) post)
  /\ parseLines (headerLineIndex url) (pre ++ post) = parseCsv url text.
Proof.
  intros Ht Hh Hbad.
  assert (Hlt : headerLineIndex url < List.length pre)
    by (apply nth_error_Some; congruence).
  assert (Hsub : S (headerLineIndex url) - List.length pre = 0) by lia.
  assert (Hrows :
            parseCsv url text
            = inr (collectRows (fields header)
                     (skipn (S (headerLineIndex url)) pre)
                   ++ collectRows (fields header) post)).
  { unfold parseCsv. rewrite Ht.
    rewrite (parseLines_found _ _ header)
      by (rewrite nth_error_app1; assumption).
    rewrite skipn_app, Hsub, collectRows_app. simpl.
    rewrite !fields_length.
    destruct (Nat.eqb_spec (List.length (split comma bad))
                           (List.length (split comma header)));
      [contradiction|].
    reflexivity. }
  split; [exact Hrows|]. rewrite Hrows.
  rewrite (parseLines_found _ _ header)
    by (rewrite nth_error_app1; assumption).
  now rewrite skipn_app, Hsub, collectRows_app.
Qed.

Lemma C2_mismatched_line_dropped_witness :
  let cr := String (ascii_of_nat 13) EmptyString in
  let text := ("a,b" ++ cr ++ lf ++ "1,2" ++ cr ++ lf ++ "3")%string in
  parseCsv "data/world_500.csv" text = inr [[("a", "1"); ("b", "2")]]
  /\ parseLines 0 ["a,b" ++ cr; "1,2" ++ cr]%string
     = parseCsv "data/world_500.csv" text.
Proof.
  cbv zeta.
  apply (C2_mismatched_line_dropped
           "data/world_500.csv" _
           [("a,b" ++ String (ascii_of_nat 13) EmptyString)%string;
            ("1,2" ++ String (ascii_of_nat 13) EmptyString)%string]
           "3" [] ("a,b" ++ String (ascii_of_nat 13) EmptyString)%string).
  - reflexivity.
  - reflexivity.
  - simpl. lia.
Defined.

(** ** The header offset of summary.csv *)

(** C3: for a URL that names summary.csv the header line is line 2 and
    the rows come from line 3 on; the result is a function of the lines
    after the first two alone. *)
Theorem C3_two_lines_skipped url text :
  includes url "summary.csv" = true ->
  headerLineIndex url = 2
  /\ parseCsv url text
     = match skipn 2 (textLines text) with
       | [] => inl TypeError
       | header :: data => inr (collectRows (fields header) data)
       end
  /\ forall text',
       skipn 2 (textLines text') = skipn 2 (textLines text) ->
       parseCsv url text' = parseCsv url text.
Proof.
  intros Hurl.
  assert (Hskip : forall t,
             parseCsv url t
             = match skipn 2 (textLines t) with
               | [] => inl TypeError
               | header :: data => inr (collectRows (fields header) data)
               end).
  { intros t. unfold parseCsv, headerLineIndex. rewrite Hurl.
    destruct (textLines t) as [|l0 [|l1 [|header data]]]; reflexivity. }
  repeat apply conj.
  - unfold headerLineIndex. now rewrite Hurl.
  - apply Hskip.
  - intros text' Hsame. now rewrite !Hskip, Hsame.
Qed.

Lemma C3_two_lines_skipped_witness :
  headerLineIndex "data/summary.csv" = 2
  /\ parseCsv "data/summary.csv"
       ("note,x,y" ++ lf ++ "1,2" ++ lf ++ "a,b" ++ lf ++ "3,4")%string
     = inr [[("a", "3"); ("b", "4")]].
Proof.
  pose proof (C3_two_lines_skipped
                "data/summary.csv"
                ("note,x,y" ++ lf ++ "1,2" ++ lf ++ "a,b" ++ lf ++ "3,4")%string
                eq_refl) as (Hidx & Hrows & _).
  exact (conj Hidx Hrows).
Defined.

(** ** White space and [trim] *)

Lemma isWs1_code c : isWs1 c = true -> nat_of_ascii c <= 32.
Proof.
  unfold isWs1. generalize (nat_of_ascii c) as n. intros n H.
  do 33 (destruct n as [|n]; [lia|]). discriminate.
Qed.

Lemma isWs2_code c1 c2 :
  isWs2 c1 c2 = true -> nat_of_ascii c1 = 194 /\ nat_of_ascii c2 = 160.
Proof.
  unfold isWs2. rewrite andb_true_iff, !Nat.eqb_eq. trivial.
Qed.

Lemma isWs3_code c1 c2 c3 :
  isWs3 c1 c2 c3 = true ->
  225 <= nat_of_ascii c1
  /\ 128 <= nat_of_ascii c2 <= 187
  /\ 128 <= nat_of_ascii c3 <= 191.
Proof.
  unfold isWs3. cbv zeta.
  rewrite !orb_true_iff, !andb_true_iff, !orb_true_iff, !andb_true_iff,
    !Nat.eqb_eq, !Nat.leb_le.
  lia.
Qed.

Lemma dropWs_cons b c1 l1 :
  dropWs b (c1 :: l1)
  = if isWs1 c1 then dropWs b l1
    else match l1 with
         | [] => c1 :: l1
         | c2 :: l2 =>
             if (if b then isWs2 c2 c1 else isWs2 c1 c2) then dropWs b l2
             else match l2 with
                  | [] => c1 :: l1
                  | c3 :: l3 =>
                      if (if b then isWs3 c3 c2 c1 else isWs3 c1 c2 c3)
                      then dropWs b l3
                      else c1 :: l1
                  end
         end.
Proof. reflexivity. Qed.

Ltac not_ws :=
  match goal with
  | |- context [isWs1 ?c] =>
      let E := fresh "E" in
      destruct (isWs1 c) eqn:E; [apply isWs1_code in E; lia|]
  | |- context [isWs2 ?c ?d] =>
      let E := fresh "E" in
      destruct (isWs2 c d) eqn:E; [apply isWs2_code in E; lia|]
  | |- context [isWs3 ?c ?d ?e] =>
      let E := fresh "E" in
      destruct (isWs3 c d e) eqn:E; [apply isWs3_code in E; lia|]
  end.

(** A printable ASCII byte stops the scan, in either direction. *)
Lemma dropWs_plain b c l :
  32 < nat_of_ascii c < 128 -> dropWs b (c :: l) = c :: l.
Proof.
  intros Hc. rewrite dropWs_cons. not_ws.
  destruct l as [|c2 l]; [reflexivity|].
  destruct b; not_ws; (destruct l as [|c3 l]; [reflexivity|]);
    not_ws; reflexivity.
Qed.

Lemma dropWs_blank_app w x :
  Blank w -> dropWs false (w ++ x) = dropWs false x.
Proof.
  induction 1 as [|c l Hc _ IH|c1 c2 l Hc _ IH|c1 c2 c3 l Hc _ IH];
    simpl app.
  - reflexivity.
  - now rewrite dropWs_cons, Hc.
  - rewrite dropWs_cons. pose proof (isWs2_code _ _ Hc).
    not_ws. now rewrite Hc.
  - rewrite dropWs_cons. pose proof (isWs3_code _ _ _ Hc).
    not_ws. not_ws. now rewrite Hc.
Qed.

Lemma dropWs_blank w : Blank w -> dropWs false w = [].
Proof.
  intros H. rewrite <- (app_nil_r w). now rewrite dropWs_blank_app.
Qed.

Lemma dropWs_rev_blank_app w x :
  Blank w -> dropWs true (rev w ++ x) = dropWs true x.
Proof.
  intros H. revert x.
  induction H as [|c l Hc _ IH|c1 c2 l Hc _ IH|c1 c2 c3 l Hc _ IH];
    intros x; simpl rev; rewrite <- ?app_assoc; simpl app.
  - reflexivity.
  - now rewrite IH, dropWs_cons, Hc.
  - rewrite IH, dropWs_cons. pose proof (isWs2_code _ _ Hc).
    not_ws. now rewrite Hc.
  - rewrite IH, dropWs_cons. pose proof (isWs3_code _ _ _ Hc).
    not_ws. not_ws. now rewrite Hc.
Qed.

(** The first byte of white space is never the second or third byte of a
    white-space character. *)
Lemma Blank_first c w :
  Blank (c :: w) ->
  nat_of_ascii c <= 32 \/ nat_of_ascii c = 194 \/ 225 <= nat_of_ascii c.
Proof.
  inversion 1 as [|? ? Hc|? ? ? Hc|? ? ? ? Hc]; subst.
  - left. now apply isWs1_code.
  - right. left. now apply isWs2_code in Hc.
  - right. right. now apply isWs3_code in Hc.
Qed.

(** White space added behind a text is dropped with the text when the
    text is blank, and stays behind what is left of it otherwise. *)
Lemma dropWs_app_blank w :
  Blank w ->
  forall n l, List.length l <= n ->
    dropWs false (l ++ w)
    = match dropWs false l with
      | [] => []
      | _ :: _ => dropWs false l ++ w
      end.
Proof.
  intros Hw. induction n as [|n IH]; intros l Hn.
  - destruct l; [|simpl in Hn; lia]. simpl. now apply dropWs_blank.
  - destruct l as [|c1 l1]; [simpl; now apply dropWs_blank|].
    simpl in Hn. simpl app. rewrite !dropWs_cons. cbv beta iota.
    destruct (isWs1 c1) eqn:E1; [apply IH; lia|].
    destruct l1 as [|c2 l2].
    + simpl app. destruct w as [|c2 w]; [reflexivity|].
      pose proof (Blank_first _ _ Hw).
      not_ws. destruct w as [|c3 w]; [reflexivity|].
      not_ws. reflexivity.
    + simpl in Hn. simpl app. cbv beta iota.
      destruct (isWs2 c1 c2) eqn:E2; [apply IH; lia|].
      destruct l2 as [|c3 l3].
      * simpl app. destruct w as [|c3 w]; [reflexivity|].
        pose proof (Blank_first _ _ Hw).
        not_ws. reflexivity.
      * simpl in Hn. simpl app. cbv beta iota.
        destruct (isWs3 c1 c2 c3) eqn:E3; [apply IH; lia|]. reflexivity.
Qed.

Lemma list_ascii_of_string_app s t :
  list_ascii_of_string (s ++ t)%string
  = list_ascii_of_string s ++ list_ascii_of_string t.
Proof. induction s as [|c s IH]; simpl; [reflexivity|now rewrite IH]. Qed.

Lemma string_of_list_ascii_app l m :
  string_of_list_ascii (l ++ m)
  = (string_of_list_ascii l ++ string_of_list_ascii m)%string.
Proof. induction l as [|c l IH]; simpl; [reflexivity|now rewrite IH]. Qed.

(** [trim] does not see white space around its argument. *)
Lemma trim_blank_around w1 s w2 :
  blank w1 -> blank w2 -> trim (w1 ++ s ++ w2)%string = trim s.
Proof.
  unfold blank, trim, trimStart. intros H1 H2.
  rewrite !list_ascii_of_string_app, dropWs_blank_app by assumption.
  rewrite (dropWs_app_blank _ H2 _ _ (le_n _)).
  destruct (dropWs false (list_ascii_of_string s)) as [|c r] eqn:E.
  - reflexivity.
  - unfold trimEnd. rewrite !list_ascii_of_string_of_list_ascii.
    now rewrite rev_app_distr, dropWs_rev_blank_app.
Qed.

Lemma blank_lf : blank lf.
Proof. apply Blank_1; [reflexivity|apply Blank_nil]. Qed.

Lemma blank_empty : blank "".
Proof. apply Blank_nil. Qed.

(** A text between double quotes is left alone by [trim]. *)
Lemma trim_quoted s :
  trim (quote ++ s ++ quote)%string = (quote ++ s ++ quote)%string.
Proof.
  assert (Hq : 32 < nat_of_ascii dquote < 128) by (cbv; lia).
  assert (HL : list_ascii_of_string (quote ++ s ++ quote)%string
               = dquote :: list_ascii_of_string s ++ [dquote])
    by (rewrite !list_ascii_of_string_app; reflexivity).
  unfold trim, trimStart, trimEnd. rewrite HL.
  rewrite dropWs_plain, list_ascii_of_string_of_list_ascii by assumption.
  simpl rev. rewrite rev_app_distr. simpl app.
  rewrite dropWs_plain by assumption.
  simpl rev. rewrite rev_app_distr, rev_involutive. simpl app.
  rewrite <- HL. apply string_of_list_ascii_of_string.
Qed.

Lemma dropWs_nil_Blank n :
  forall l, List.length l <= n -> dropWs false l = [] -> Blank l.
Proof.
  induction n as [|n IH]; intros l Hn.
  - destruct l; [constructor|simpl in Hn; lia].
  - destruct l as [|c1 l1]; [constructor|].
    simpl in Hn. rewrite dropWs_cons.
    destruct (isWs1 c1) eqn:E1.
    { intros H. apply Blank_1; [assumption|apply IH; [lia|assumption]]. }
    destruct l1 as [|c2 l2]; [discriminate|]. simpl in Hn.
    destruct (isWs2 c1 c2) eqn:E2.
    { intros H. apply Blank_2; [assumption|apply IH; [lia|assumption]]. }
    destruct l2 as [|c3 l3]; [discriminate|]. simpl in Hn.
    destruct (isWs3 c1 c2 c3) eqn:E3; [|discriminate].
    intros H. apply Blank_3; [assumption|apply IH; [lia|assumption]].
Qed.

Lemma isBlank_blank s : isBlank s = true -> blank s.
Proof.
  unfold isBlank, blank. intros H.
  apply (dropWs_nil_Blank _ _ (le_n _)).
  destruct (dropWs false (list_ascii_of_string s)); [reflexivity|discriminate].
Qed.

(** C10: the text is trimmed as a whole before it is split, so white
    space in front of it and behind it, blank lines and a last line feed
    included, changes neither the lines the header index counts nor the
    rows. *)
Theorem C10_text_trimmed_before_split url text w1 w2 :
  isBlank w1 = true -> isBlank w2 = true ->
  textLines (w1 ++ text ++ w2)%string = textLines text
  /\ parseCsv url (w1 ++ text ++ w2)%string = parseCsv url text
  /\ parseCsv url (text ++ lf)%string = parseCsv url text.
Proof.
  intros H1 H2.
  assert (Hlines : textLines (w1 ++ text ++ w2)%string = textLines text).
  { unfold textLines.
    now rewrite trim_blank_around by (apply isBlank_blank; assumption). }
  split; [assumption|]. split.
  - unfold parseCsv. now rewrite Hlines.
  - unfold parseCsv, textLines.
    change (text ++ lf)%string with ("" ++ text ++ lf)%string.
    now rewrite trim_blank_around by (apply blank_empty || apply blank_lf).
Qed.

Lemma C10_text_trimmed_before_split_witness :
  let text := ("a,b" ++ lf ++ "1,2")%string in
  textLines (lf ++ text ++ (" " ++ lf))%string = textLines text
  /\ parseCsv "data/world_500.csv" (lf ++ text ++ (" " ++ lf))%string
     = parseCsv "data/world_500.csv" text
  /\ parseCsv "data/world_500.csv" (text ++ lf)%string
     = parseCsv "data/world_500.csv" text.
Proof.
  apply (C10_text_trimmed_before_split "data/world_500.csv");
    reflexivity.
Defined.

(** ** What a field is *)

Lemma removeQuotes_unquoted s : unquoted (removeQuotes s).
Proof.
  unfold unquoted. induction s as [|c s IH]; simpl; [tauto|].
  destruct (Ascii.eqb_spec c dquote) as [->|Hc]; [assumption|].
  simpl. intros [E|Hin]; [congruence|contradiction].
Qed.

Lemma removeQuotes_app s t :
  removeQuotes (s ++ t)%string = (removeQuotes s ++ removeQuotes t)%string.
Proof.
  induction s as [|c s IH]; simpl; [reflexivity|].
  destruct (Ascii.eqb c dquote); simpl; now rewrite IH.
Qed.

(** A field written between double quotes yields what is between them,
    white space included, without any double quote it holds. *)
Lemma cleanField_quoted s :
  cleanField (quote ++ s ++ quote)%string = removeQuotes s.
Proof.
  unfold cleanField. rewrite trim_quoted, !removeQuotes_app.
  change (removeQuotes quote) with "". simpl.
  generalize (removeQuotes s). intros r.
  induction r as [|c r IH]; simpl; [reflexivity|now rewrite IH].
Qed.

(** C9 as the specification words it fails on a quote inside a field,
    which is deleted as well, and on white space inside the quotes, which
    is kept: the quoted field whose content is [say], a quoted [hi], loses
    the inner quotes too, and the quoted field of a padded [a] keeps its
    blanks. *)
Lemma C9_inner_quote_deleted :
  let raw := (quote ++ "say " ++ quote ++ quote ++ "hi"
              ++ quote ++ quote ++ quote)%string in
  let padded := (quote ++ " a " ++ quote)%string in
  cleanField raw = "say hi"
  /\ specField raw = ("say " ++ quote ++ quote ++ "hi" ++ quote ++ quote)%string
  /\ cleanField raw <> specField raw
  /\ cleanField padded = " a "
  /\ trim (cleanField padded) <> cleanField padded.
Proof.
  cbv zeta. repeat apply conj; try (vm_compute; reflexivity);
    intros H; vm_compute in H; discriminate H.
Qed.

(** C9, amended: every header name and every cell value of a returned
    row is a comma-separated piece of a line that was trimmed and then
    lost all of its double quotes, and so holds none. *)
Theorem C9_fields_trimmed_then_unquoted url text rows row k v :
  parseCsv url text = inr rows ->
  In row rows ->
  JsObject.own_get k row = Some v ->
  (exists header line rawk rawv,
      nth_error (textLines text) (headerLineIndex url) = Some header
      /\ In line (textLines text)
      /\ In rawk (split comma header) /\ In rawv (split comma line)
      /\ k = removeQuotes (trim rawk) /\ v = removeQuotes (trim rawv))
  /\ unquoted k /\ unquoted v.
Proof.
  unfold parseCsv, parseLines. intros Hparse Hrow Hget.
  destruct (nth_error (textLines text) (headerLineIndex url))
    as [header|] eqn:Hh; [|discriminate].
  injection Hparse as <-.
  apply collectRows_In in Hrow. destruct Hrow as (line & Hline & _ & ->).
  apply buildRow_origin in Hget. destruct Hget as [Hk Hv].
  unfold fields in Hk, Hv. apply in_map_iff in Hk, Hv.
  destruct Hk as (rawk & <- & Hrawk). destruct Hv as (rawv & <- & Hrawv).
  split; [|split; apply removeQuotes_unquoted].
  exists header, line, rawk, rawv.
  repeat apply conj; try reflexivity; try assumption.
  apply (In_skipn _ (S (headerLineIndex url))). exact Hline.
Qed.

Lemma C9_fields_trimmed_then_unquoted_witness :
  (exists header line rawk rawv,
      nth_error (textLines ("a,b" ++ lf ++ " x ,y")%string)
                (headerLineIndex "data/world_500.csv") = Some header
      /\ In line (textLines ("a,b" ++ lf ++ " x ,y")%string)
      /\ In rawk (split comma header) /\ In rawv (split comma line)
      /\ "a" = removeQuotes (trim rawk) /\ "x" = removeQuotes (trim rawv))
  /\ unquoted "a" /\ unquoted "x".
Proof.
  apply (C9_fields_trimmed_then_unquoted
           "data/world_500.csv" ("a,b" ++ lf ++ " x ,y")%string
           [[("a", "x"); ("b", "y")]] [("a", "x"); ("b", "y")]).
  - reflexivity.
  - simpl. auto.
  - reflexivity.
Defined.

(** ** Counting by category *)

Section Counting.
Variable sourceText : string -> string.

Lemma countStep_own_get k acc row :
  JsObject.own_get k (countStep sourceText acc row)
  = if counted k row then bump sourceText k (JsObject.own_get k acc)
    else JsObject.own_get k acc.
Proof.
  unfold countStep, counted, carries, bump, getCount.
  destruct (cell "国家" row) as [country|]; [|reflexivity].
  destruct (String.eqb_spec country k) as [->|Hne].
  - destruct (String.eqb_spec k ""); [reflexivity|].
    destruct (String.eqb_spec k "__proto__") as [->|Hp]; [reflexivity|].
    simpl. now rewrite own_get_set_eq.
  - simpl. destruct (String.eqb country ""); [reflexivity|].
    now rewrite own_get_set_ne.
Qed.

Lemma fold_countStep_own_get k data :
  forall acc,
    JsObject.own_get k (fold_left (countStep sourceText) data acc)
    = Nat.iter (countedRows k data) (bump sourceText k) (JsObject.own_get k acc).
Proof.
  induction data as [|row data IH]; intros acc; simpl; [reflexivity|].
  rewrite IH, countStep_own_get.
  destruct (counted k row); simpl; [|reflexivity].
  now rewrite <- Nat.iter_succ_r.
Qed.

Lemma countedRows_perm k data data' :
  Permutation data data' -> countedRows k data = countedRows k data'.
Proof. induction 1; simpl; lia. Qed.

Lemma countedRows_occurrences k data :
  k <> "" -> k <> "__proto__" -> countedRows k data = occurrences k data.
Proof.
  intros Hk Hp. induction data as [|row data IH]; simpl; [reflexivity|].
  unfold counted.
  destruct (String.eqb_spec k ""); [contradiction|].
  destruct (String.eqb_spec k "__proto__"); [contradiction|].
  rewrite IH. now destruct (carries k row).
Qed.

(** On a key that [Object.prototype] does not have, the stored values
    are the numbers 1, 2, 3 and so on. *)
Lemma iter_bump_plain k n :
  inheritedValue k = VUndefined ->
  Nat.iter (S n) (bump sourceText k) None = Some (VNumber (N.of_nat (S n))).
Proof.
  intros Hk. induction n as [|n IH].
  - simpl. unfold bump. now rewrite Hk.
  - rewrite Nat.iter_succ, IH. unfold bump, increment.
    destruct (N.eqb_spec (N.of_nat (S n)) 0) as [E|_]; [lia|].
    do 2 f_equal. lia.
Qed.

(** Count-by-category on the keys that [Object.prototype] does not
    have: the count of a key is the number of rows that carry it, and a
    key no row carries is absent. *)
Lemma countryCounts_plain k data :
  k <> "" -> JsObject.inherited k = false ->
  JsObject.own_get k (countryCounts sourceText data)
  = match occurrences k data with
    | O => None
    | S n => Some (VNumber (N.of_nat (S n)))
    end.
Proof.
  intros Hk Hin. unfold countryCounts.
  unfold JsObject.inherited in Hin. apply orb_false_iff in Hin.
  destruct Hin as [Hp Hf].
  assert (Hp' : k <> "__proto__")
    by (destruct (String.eqb_spec k "__proto__"); congruence).
  rewrite fold_countStep_own_get, countedRows_occurrences by assumption.
  destruct (occurrences k data) as [|n]; [reflexivity|].
  apply iter_bump_plain. unfold inheritedValue. now rewrite Hp, Hf.
Qed.

(** C4: the counts do not depend on the order of the rows: a permuted
    sequence gives every key the value the original gives it. *)
Theorem C4_counts_permutation_invariant data data' :
  Permutation data data' ->
  forall k,
    JsObject.own_get k (countryCounts sourceText data)
    = JsObject.own_get k (countryCounts sourceText data').
Proof.
  intros Hperm k. unfold countryCounts.
  rewrite !fold_countStep_own_get.
  now rewrite (countedRows_perm k _ _ Hperm).
Qed.

(** The rows of the specification's example give its counts. *)
Lemma countryCounts_example :
  countryCounts sourceText
    [[("国家", "中国")]; [("国家", "中国")]; [("国家", "美国")]]
  = [("中国", VNumber 2); ("美国", VNumber 1)].
Proof. reflexivity. Qed.

(** C5, at a category named like a property of [Object.prototype]: the
    one data line of the file carries [constructor], and the value stored
    for it is not the number 1 but the text of the inherited function
    followed by 1.  The accumulator is an object made by [{}], so
    [acc[country] || 0] finds the inherited function where it expects no
    count yet. *)
Theorem C5_inherited_name_not_counted :
  let text := ("国家" ++ lf ++ "constructor")%string in
  let data := [[("国家", "constructor")]] in
  parseCsv "data/world_500.csv" text = inr data
  /\ occurrences "constructor" data = 1
  /\ countryCounts sourceText data
     = [("constructor", VString (sourceText "constructor" ++ "1"))]
  /\ JsObject.own_get "constructor" (countryCounts sourceText data)
     <> Some (VNumber 1).
Proof. cbv zeta. repeat apply conj; try reflexivity. discriminate. Qed.
End Counting.

Lemma C4_counts_permutation_invariant_witness :
  JsObject.own_get "中国"
    (countryCounts (fun _ => "")
       [[("国家", "中国")]; [("国家", "美国")]; [("国家", "中国")]])
  = JsObject.own_get "中国"
      (countryCounts (fun _ => "")
         [[("国家", "美国")]; [("国家", "中国")]; [("国家", "中国")]]).
Proof.
  apply (C4_counts_permutation_invariant (fun _ => "")). apply perm_swap.
Defined.

(** ** Names for the map *)

(** C7 as stated fails on a label that holds two of the known
    substrings: it holds the second one and still becomes China. *)
Lemma C7_two_substrings :
  includes "美国中国" "美国" = true
  /\ mapName "美国中国" = "China"
  /\ mapName "美国中国" <> "United States".
Proof. repeat apply conj; try reflexivity. discriminate. Qed.

(** C7, amended: the first substring of the table that the label holds
    decides, in the order of the table; a label that holds none is left
    as it is. *)
Theorem C7_first_match_decides label :
  (includes label "中国" = true /\ mapName label = "China")
  \/ (includes label "中国" = false /\ includes label "美国" = true
      /\ mapName label = "United States")
  \/ (includes label "中国" = false /\ includes label "美国" = false
      /\ includes label "日本" = true /\ mapName label = "Japan")
  \/ (includes label "中国" = false /\ includes label "美国" = false
      /\ includes label "日本" = false /\ mapName label = label).
Proof.
  unfold mapName.
  destruct (includes label "中国"); [left; auto|right].
  destruct (includes label "美国"); [left; auto|right].
  destruct (includes label "日本"); [left; auto|right; auto].
Qed.

(** Every item of the series is an entry of the counts, its key renamed
    and its count kept. *)
Lemma mapData_items counts :
  map name (mapData counts)
  = map (fun kv => mapName (fst kv)) (JsObject.entries counts)
  /\ map value (mapData counts) = map snd (JsObject.entries counts).
Proof. unfold mapData. now rewrite !map_map. Qed.

(** ** Rates *)



(** C8: a row whose rate cell does not parse as a number is neither
    skipped nor an error: the text NaN stands at its position, the label
    at the same position is the row's own, and both sequences are as long
    as the data. *)
Theorem C8_unparsable_rate_is_NaN data i row :
  nth_error data i = Some row ->
  JsNumber.parseFloat (cellText (cell "平均利润率" row)) = S754_nan ->
  nth_error (avgProfitRates data) i = Some "NaN"
  /\ nth_error (industries data) i = Some (cell "行业(个人观点)" row)
  /\ List.length (avgProfitRates data) = List.length data
  /\ List.length (industries data) = List.length data.
Proof.
  intros Hrow Hnan. unfold avgProfitRates, industries.
  repeat apply conj.
  - rewrite nth_error_map, Hrow. simpl. unfold profitRate.
    now rewrite Hnan.
  - now rewrite nth_error_map, Hrow.
  - apply length_map.
  - apply length_map.
Qed.

Lemma C8_unparsable_rate_is_NaN_witness :
  let data := [ [("行业(个人观点)", "Tech"); ("平均利润率", "0.12")];
                [("行业(个人观点)", "Coal"); ("平均利润率", "n/a")];
                [("行业(个人观点)", "Food")] ] in
  nth_error (avgProfitRates data) 1 = Some "NaN"
  /\ nth_error (industries data) 1 = Some (Some "Coal")
  /\ List.length (avgProfitRates data) = 3
  /\ List.length (industries data) = 3.
Proof.
  apply (C8_unparsable_rate_is_NaN
           [ [("行业(个人观点)", "Tech"); ("平均利润率", "0.12")];
             [("行业(个人观点)", "Coal"); ("平均利润率", "n/a")];
             [("行业(个人观点)", "Food")] ] 1
           [("行业(个人观点)", "Coal"); ("平均利润率", "n/a")]).
  - reflexivity.
  - reflexivity.
Defined.

(** ** Two decimals *)

Lemma substring_length s :
  forall n m, n + m <= String.length s ->
              String.length (String.substring n m s) = m.
Proof.
  induction s as [|c s IH]; intros [|n] [|m]; simpl; intros H;
    try reflexivity; try lia.
  - rewrite IH; [reflexivity|lia].
  - apply IH. lia.
  - apply IH. simpl. lia.
Qed.

Lemma string_length_app s t :
  String.length (s ++ t)%string = String.length s + String.length t.
Proof. induction s as [|c s IH]; simpl; [reflexivity|now rewrite IH]. Qed.

Lemma zeros_length n : String.length (JsNumber.zeros n) = n.
Proof. induction n as [|n IH]; simpl; [reflexivity|now rewrite IH]. Qed.

(** The text of [fixed2] is a whole part of at least one character, a
    point, and two more characters. *)
Lemma fixed2_two_decimals n :
  exists whole frac,
    JsNumber.fixed2 n = (whole ++ "." ++ frac)%string
    /\ 1 <= String.length whole /\ String.length frac = 2.
Proof.
  unfold JsNumber.fixed2.
  set (ds := (JsNumber.zeros (3 - String.length (JsNumber.digits n))
              ++ JsNumber.digits n)%string).
  assert (Hk : 3 <= String.length ds)
    by (unfold ds; rewrite string_length_app, zeros_length; lia).
  exists (String.substring 0 (String.length ds - 2) ds),
         (String.substring (String.length ds - 2) 2 ds).
  repeat apply conj.
  - reflexivity.
  - rewrite substring_length; lia.
  - apply substring_length. lia.
Qed.

(** A finite Number below [10 ^ 21] is printed with exactly two
    decimals. *)
Lemma toFixed2_two_decimals neg m e :
  JsNumber.large m e = false ->
  exists whole frac,
    JsNumber.toFixed2 (S754_finite neg m e)
    = ((if neg then "-" else "") ++ whole ++ "." ++ frac)%string
    /\ 1 <= String.length whole /\ String.length frac = 2.
Proof.
  intros Hsmall. unfold JsNumber.toFixed2. rewrite Hsmall.
  destruct (JsNumber.scaled m e) as [num den].
  destruct (fixed2_two_decimals (Z.to_N ((2 * num + den) / (2 * den))))
    as (whole & frac & -> & Hw & Hf).
  exists whole, frac. auto.
Qed.

(** ** The loader behind [fetch] *)

Lemma fetchCsvData_parse fetch url text :
  fetch url = Some text -> fetchCsvData fetch url = parseCsv url text.
Proof. unfold fetchCsvData. now intros ->. Qed.

Lemma fetchCsvData_rejected fetch url :
  fetch url = None -> fetchCsvData fetch url = inl NetworkError.
Proof. unfold fetchCsvData. now intros ->. Qed.

(** * Further properties of the loader *)

Lemma split_not_nil sep s : split sep s <> [].
Proof.
  destruct s as [|c s]; simpl; [discriminate|].
  destruct (Ascii.eqb c sep); [discriminate|].
  destruct (split sep s); discriminate.
Qed.

Lemma textLines_not_nil text : textLines text <> [].
Proof. apply split_not_nil. Qed.

(** Away from summary.csv the loader has a header line whatever the text
    is, and never fails. *)
Theorem loader_plain_url_never_fails url text :
  includes url "summary.csv" = false ->
  exists rows, parseCsv url text = inr rows.
Proof.
  intros Hurl. unfold parseCsv, parseLines, headerLineIndex. rewrite Hurl.
  pose proof (textLines_not_nil text) as Hne.
  destruct (textLines text) as [|header data]; [contradiction|].
  simpl. eauto.
Qed.

Lemma loader_plain_url_never_fails_witness :
  exists rows, parseCsv "data/world_500.csv" "" = inr rows.
Proof.
  apply (loader_plain_url_never_fails "data/world_500.csv" "").
  reflexivity.
Defined.

(** For summary.csv the loader fails, with the TypeError of reading
    [split] on [undefined], exactly when the trimmed text has fewer than
    three lines. *)
Theorem loader_summary_needs_three_lines url text :
  includes url "summary.csv" = true ->
  parseCsv url text = inl TypeError <-> List.length (textLines text) < 3.
Proof.
  intros Hurl. unfold parseCsv, parseLines, headerLineIndex. rewrite Hurl.
  destruct (textLines text) as [|l0 [|l1 [|header data]]]; simpl;
    split; intros H; try reflexivity; try lia; discriminate.
Qed.

Lemma loader_summary_needs_three_lines_witness :
  parseCsv "data/summary.csv" ("title" ++ lf ++ "a,b")%string = inl TypeError
  <-> List.length (textLines ("title" ++ lf ++ "a,b")%string) < 3.
Proof.
  apply (loader_summary_needs_three_lines "data/summary.csv"). reflexivity.
Defined.

Lemma trim_blank text : isBlank text = true -> trim text = "".
Proof.
  unfold isBlank, trim, trimStart. intros H.
  destruct (dropWs false (list_ascii_of_string text)); [reflexivity|].
  discriminate.
Qed.

(** A text of white space only has one empty line: no row away from
    summary.csv, and the TypeError for summary.csv. *)
Theorem loader_blank_text url text :
  isBlank text = true ->
  parseCsv url text
  = if includes url "summary.csv" then inl TypeError else inr [].
Proof.
  intros Hblank. unfold parseCsv, textLines, headerLineIndex.
  rewrite (trim_blank _ Hblank).
  destruct (includes url "summary.csv"); reflexivity.
Qed.

Lemma loader_blank_text_witness :
  parseCsv "data/world_500.csv" (" " ++ lf ++ lf)%string = inr [].
Proof.
  apply (loader_blank_text "data/world_500.csv" (" " ++ lf ++ lf)%string).
  reflexivity.
Defined.

Lemma collectRows_length headers lines :
  List.length (collectRows headers lines) <= List.length lines.
Proof.
  induction lines as [|line lines IH]; simpl; [lia|].
  destruct (_ =? _)%nat; simpl; lia.
Qed.

(** The loader never returns more rows than there are lines after the
    header line. *)
Theorem loader_rows_bounded url text rows :
  parseCsv url text = inr rows ->
  List.length rows + S (headerLineIndex url)
  <= List.length (textLines text).
Proof.
  unfold parseCsv. intros H.
  destruct (nth_error (textLines text) (headerLineIndex url))
    as [header|] eqn:Hh;
    [|unfold parseLines in H; rewrite Hh in H; discriminate].
  rewrite (parseLines_found _ _ _ Hh) in H.
  remember (skipn (S (headerLineIndex url)) (textLines text)) as data
    eqn:Hdata.
  injection H as <-.
  assert (Hlt : headerLineIndex url < List.length (textLines text))
    by (apply nth_error_Some; congruence).
  pose proof (collectRows_length (fields header) data) as Hle.
  assert (Hlen : List.length data
                 = List.length (textLines text) - S (headerLineIndex url))
    by (rewrite Hdata; apply length_skipn).
  lia.
Qed.

Lemma loader_rows_bounded_witness :
  List.length [[("a", "1"); ("b", "2")]] + S (headerLineIndex "data/world_500.csv")
  <= List.length (textLines ("a,b" ++ lf ++ "1,2" ++ lf ++ "3")%string).
Proof.
  apply (loader_rows_bounded "data/world_500.csv"
           ("a,b" ++ lf ++ "1,2" ++ lf ++ "3")%string).
  reflexivity.
Defined.

(** ** How a row is filled *)

Section OwnKeys.
Context {V : Type}.
Implicit Types (o : JsObject.t V) (k : string) (v : V).

Lemma own_get_None_iff k o :
  JsObject.own_get k o = None <-> ~ In k (JsObject.own_keys o).
Proof.
  unfold JsObject.own_keys.
  induction o as [|[k' v'] o IH]; simpl; [tauto|].
  destruct (String.eqb_spec k k') as [->|Hne].
  - split; [discriminate|]. intros H. exfalso. apply H. now left.
  - rewrite IH. split; [intros H [E|Hin]; [congruence|tauto]|tauto].
Qed.

Lemma own_get_app k o1 o2 :
  JsObject.own_get k (o1 ++ o2)
  = match JsObject.own_get k o1 with
    | Some v => Some v
    | None => JsObject.own_get k o2
    end.
Proof.
  induction o1 as [|[k' v'] o1 IH]; simpl; [reflexivity|].
  now destruct (String.eqb k k').
Qed.

Lemma own_put_new k v o :
  JsObject.own_get k o = None -> JsObject.own_put k v o = o ++ [(k, v)].
Proof.
  induction o as [|[k' v'] o IH]; simpl; [reflexivity|].
  destruct (String.eqb k k'); [discriminate|]. intros H. now rewrite IH.
Qed.

Lemma own_keys_put_old k v o :
  JsObject.own_get k o <> None ->
  JsObject.own_keys (JsObject.own_put k v o) = JsObject.own_keys o.
Proof.
  unfold JsObject.own_keys.
  induction o as [|[k' v'] o IH]; simpl; [congruence|].
  destruct (String.eqb k k'); [reflexivity|]. intros H. simpl.
  now rewrite IH.
Qed.

(** Writing a property keeps the keys of an object distinct and never
    makes [__proto__] one of them. *)
Lemma set_keeps_keys k v o :
  NoDup (JsObject.own_keys o) /\ ~ In "__proto__" (JsObject.own_keys o) ->
  NoDup (JsObject.own_keys (JsObject.set k v o))
  /\ ~ In "__proto__" (JsObject.own_keys (JsObject.set k v o)).
Proof.
  intros [Hnd Hp]. unfold JsObject.set.
  destruct (String.eqb_spec k "__proto__") as [->|Hk]; [tauto|].
  destruct (JsObject.own_get k o) as [v0|] eqn:Hget.
  - rewrite own_keys_put_old by congruence. tauto.
  - rewrite own_put_new by assumption.
    unfold JsObject.own_keys in *. rewrite map_app. simpl. split.
    + apply NoDup_app; [assumption|repeat constructor; tauto|].
      intros x Hx [<-|[]]. now apply own_get_None_iff in Hget.
    + rewrite in_app_iff. simpl. intros [H|[H|[]]]; [tauto|congruence].
Qed.
End OwnKeys.

Lemma fold_setPair_keys pairs :
  forall row : Row,
    NoDup (JsObject.own_keys row)
    /\ ~ In "__proto__" (JsObject.own_keys row) ->
    NoDup (JsObject.own_keys (fold_left setPair pairs row))
    /\ ~ In "__proto__" (JsObject.own_keys (fold_left setPair pairs row)).
Proof.
  induction pairs as [|[k v] pairs IH]; simpl; intros row H; [assumption|].
  apply IH. unfold setPair. now apply set_keeps_keys.
Qed.

(** Every row the loader returns has distinct keys, and [__proto__] is
    never one of them. *)
Theorem loader_row_keys_distinct url text rows row :
  parseCsv url text = inr rows -> In row rows ->
  NoDup (JsObject.own_keys row) /\ ~ In "__proto__" (JsObject.own_keys row).
Proof.
  unfold parseCsv, parseLines. intros Hparse Hrow.
  destruct (nth_error (textLines text) (headerLineIndex url));
    [|discriminate].
  injection Hparse as <-.
  apply collectRows_In in Hrow. destruct Hrow as (line & _ & _ & ->).
  rewrite buildRow_fold. apply fold_setPair_keys.
  split; [constructor|intros []].
Qed.

Lemma loader_row_keys_distinct_witness :
  NoDup (JsObject.own_keys [("a", "2")])
  /\ ~ In "__proto__" (JsObject.own_keys [("a", "2")]).
Proof.
  apply (loader_row_keys_distinct
           "data/world_500.csv" ("a,a,__proto__" ++ lf ++ "1,2,3")%string
           [[("a", "2")]]).
  - reflexivity.
  - simpl. auto.
Defined.

Lemma fold_setPair_last pairs h :
  h <> "__proto__" ->
  forall row : Row,
    JsObject.own_get h (fold_left setPair pairs row)
    = match JsObject.own_get h (rev pairs) with
      | Some v => Some v
      | None => JsObject.own_get h row
      end.
Proof.
  intros Hh. induction pairs as [|[k v] pairs IH]; simpl; intros row;
    [reflexivity|].
  rewrite IH, own_get_app. unfold setPair. simpl.
  destruct (JsObject.own_get h (rev pairs)); [reflexivity|].
  destruct (String.eqb_spec h k) as [->|Hne].
  - now rewrite own_get_set_eq.
  - rewrite own_get_set_ne by congruence. reflexivity.
Qed.

(** When a header name is declared twice, the value of the last column
    of that name is the one the row keeps: a row reads as the list of its
    header and value pairs searched from the end. *)
Theorem buildRow_last_wins headers values h :
  h <> "__proto__" ->
  JsObject.own_get h (buildRow headers values)
  = JsObject.own_get h (rev (combine headers values)).
Proof.
  intros Hh. rewrite buildRow_fold, (fold_setPair_last _ _ Hh). simpl.
  now destruct (JsObject.own_get h (rev (combine headers values))).
Qed.

Lemma buildRow_last_wins_witness :
  JsObject.own_get "a" (buildRow ["a"; "b"; "a"] ["1"; "2"; "3"])
  = JsObject.own_get "a" (rev (combine ["a"; "b"; "a"] ["1"; "2"; "3"])).
Proof.
  apply (buildRow_last_wins ["a"; "b"; "a"] ["1"; "2"; "3"] "a").
  discriminate.
Defined.




(** ** White space around fields and lines *)

(** White space around a field does not reach the row. *)
Theorem cleanField_ignores_padding w1 f w2 :
  isBlank w1 = true -> isBlank w2 = true ->
  cleanField (w1 ++ f ++ w2)%string = cleanField f.
Proof.
  intros H1 H2. unfold cleanField.
  now rewrite trim_blank_around by (apply isBlank_blank; assumption).
Qed.

Lemma cleanField_ignores_padding_witness :
  cleanField ("  " ++ "Acme" ++ " ")%string = cleanField "Acme".
Proof.
  apply (cleanField_ignores_padding "  " "Acme" " "); reflexivity.
Defined.

Lemma Blank_no_comma w : Blank w -> ~ In comma w.
Proof.
  assert (Hc : nat_of_ascii comma = 44) by reflexivity.
  induction 1 as [|c l Hws _ IH|c1 c2 l Hws _ IH|c1 c2 c3 l Hws _ IH];
    simpl.
  - tauto.
  - apply isWs1_code in Hws. intros [E|H]; [subst; lia|tauto].
  - apply isWs2_code in Hws. intros [E|[E|H]]; try (subst; lia). tauto.
  - apply isWs3_code in Hws.
    intros [E|[E|[E|H]]]; try (subst; lia). tauto.
Qed.

Lemma split_free sep w :
  ~ In sep (list_ascii_of_string w) -> split sep w = [w].
Proof.
  induction w as [|c w IH]; simpl; [reflexivity|]. intros H.
  destruct (Ascii.eqb_spec c sep) as [->|_]; [tauto|].
  rewrite IH by tauto. reflexivity.
Qed.

(** Text without the separator, put behind a string, goes to the last
    piece of its split. *)
Lemma split_app_free sep s w :
  ~ In sep (list_ascii_of_string w) ->
  split sep (s ++ w)%string
  = removelast (split sep s) ++ [(last (split sep s) "" ++ w)%string].
Proof.
  intros Hw. induction s as [|c s IH]; simpl String.append.
  - simpl. now apply split_free.
  - simpl split. pose proof (split_not_nil sep s) as Hne.
    destruct (Ascii.eqb c sep).
    + rewrite IH. destruct (split sep s) as [|p ps]; [contradiction|].
      reflexivity.
    + rewrite IH. destruct (split sep s) as [|p [|p' ps]];
        [contradiction|reflexivity|reflexivity].
Qed.

Lemma fields_trailing_blank line w :
  isBlank w = true -> fields (line ++ w)%string = fields line.
Proof.
  intros Hw. pose proof (isBlank_blank _ Hw) as Hb.
  unfold fields.
  rewrite split_app_free by (apply Blank_no_comma; exact Hb).
  rewrite (app_removelast_last "" (split_not_nil comma line)) at 3.
  rewrite !map_app. simpl. do 2 f_equal.
  unfold cleanField.
  change (last (split comma line) "" ++ w)%string
    with ("" ++ last (split comma line) "" ++ w)%string.
  now rewrite trim_blank_around by (apply blank_empty || exact Hb).
Qed.

Lemma collectRows_same_fields headers lines lines' :
  Forall2 (fun l l' => fields l' = fields l) lines lines' ->
  collectRows headers lines' = collectRows headers lines.
Proof.
  induction 1 as [|l l' lines lines' Hl _ IH]; simpl; [reflexivity|].
  now rewrite Hl, IH.
Qed.

Lemma fields_padded l l' : paddedLine l l' -> fields l' = fields l.
Proof. intros (w & Hw & ->). now apply fields_trailing_blank. Qed.

Lemma parseLines_same_fields lines lines' :
  Forall2 (fun l l' => fields l' = fields l) lines lines' ->
  forall headerLine,
    parseLines headerLine lines' = parseLines headerLine lines.
Proof.
  induction 1 as [|l l' lines lines' Hl Hrest IH]; intros [|n];
    try reflexivity.
  - unfold parseLines. simpl. rewrite Hl.
    now rewrite (collectRows_same_fields _ _ _ Hrest).
  - exact (IH n).
Qed.

(** White space at the end of lines changes nothing: when each line of a
    fetched text is a line of another text with white space behind it,
    as with the carriage returns a file with CR LF line ends leaves on
    all its lines but the last, the loader returns the same for both. *)
Theorem loader_trailing_blank_on_lines url text text' :
  Forall2 paddedLine (textLines text) (textLines text') ->
  parseCsv url text' = parseCsv url text.
Proof.
  intros Hpad. unfold parseCsv. apply parseLines_same_fields.
  induction Hpad as [|l l' lines lines' Hl _ IH]; constructor;
    [now apply fields_padded|assumption].
Qed.

Lemma loader_trailing_blank_on_lines_witness :
  let cr := String (ascii_of_nat 13) EmptyString in
  parseCsv "data/world_500.csv"
    ("a,b" ++ cr ++ lf ++ "1,2" ++ cr ++ lf ++ "3,4" ++ cr ++ lf)%string
  = parseCsv "data/world_500.csv" ("a,b" ++ lf ++ "1,2" ++ lf ++ "3,4")%string.
Proof.
  cbv zeta.
  apply (loader_trailing_blank_on_lines "data/world_500.csv").
  repeat constructor.
  - exists (String (ascii_of_nat 13) EmptyString). split; reflexivity.
  - exists (String (ascii_of_nat 13) EmptyString). split; reflexivity.
  - exists EmptyString. split; reflexivity.
Defined.

(** ** What a field cannot hold *)

Lemma dropWs_suffix b n :
  forall l, List.length l <= n -> exists p, l = p ++ dropWs b l.
Proof.
  induction n as [|n IH]; intros l Hn.
  - destruct l; [now exists []|simpl in Hn; lia].
  - destruct l as [|c1 l1]; [now exists []|].
    simpl in Hn. rewrite dropWs_cons.
    destruct (isWs1 c1).
    { destruct (IH l1) as [p Hp]; [lia|].
      exists (c1 :: p). simpl. now rewrite <- Hp. }
    destruct l1 as [|c2 l2]; [now exists []|]. simpl in Hn.
    destruct (if b then isWs2 c2 c1 else isWs2 c1 c2).
    { destruct (IH l2) as [p Hp]; [lia|].
      exists (c1 :: c2 :: p). simpl. now rewrite <- Hp. }
    destruct l2 as [|c3 l3]; [now exists []|]. simpl in Hn.
    destruct (if b then isWs3 c3 c2 c1 else isWs3 c1 c2 c3);
      [|now exists []].
    destruct (IH l3) as [p Hp]; [lia|].
    exists (c1 :: c2 :: c3 :: p). simpl. now rewrite <- Hp.
Qed.

Lemma dropWs_In b l c : In c (dropWs b l) -> In c l.
Proof.
  intros H. destruct (dropWs_suffix b _ l (le_n _)) as [p Hp].
  rewrite Hp. apply in_or_app. now right.
Qed.

Lemma trim_In s c :
  In c (list_ascii_of_string (trim s)) -> In c (list_ascii_of_string s).
Proof.
  unfold trim, trimEnd, trimStart.
  rewrite !list_ascii_of_string_of_list_ascii. intros H.
  apply in_rev, dropWs_In, in_rev in H. now apply dropWs_In in H.
Qed.

Lemma removeQuotes_In s c :
  In c (list_ascii_of_string (removeQuotes s)) ->
  In c (list_ascii_of_string s).
Proof.
  induction s as [|a s IH]; simpl; [tauto|].
  destruct (Ascii.eqb a dquote); simpl; tauto.
Qed.

Lemma cleanField_In f c :
  In c (list_ascii_of_string (cleanField f)) ->
  In c (list_ascii_of_string f).
Proof. intros H. now apply trim_In, removeQuotes_In. Qed.

(** A piece of a split holds characters of the text, never the
    separator. *)
Lemma split_piece sep s :
  forall piece, In piece (split sep s) ->
    ~ In sep (list_ascii_of_string piece)
    /\ forall c, In c (list_ascii_of_string piece) ->
                 In c (list_ascii_of_string s).
Proof.
  induction s as [|a s IH]; simpl; intros piece Hin.
  - destruct Hin as [<-|[]]. simpl. tauto.
  - destruct (Ascii.eqb_spec a sep) as [->|Hne].
    + destruct Hin as [<-|Hin]; [simpl; tauto|].
      destruct (IH _ Hin). split; [assumption|auto].
    + destruct (split sep s) as [|p ps] eqn:Hs.
      * destruct Hin as [<-|[]]. simpl. split; [|tauto].
        intros [E|[]]. congruence.
      * destruct Hin as [<-|Hin].
        -- destruct (IH p (or_introl eq_refl)) as [Hp Hc]. simpl. split.
           ++ intros [E|H]; [congruence|tauto].
           ++ intros c [E|H]; [now left|right; auto].
        -- destruct (IH piece (or_intror Hin)). split; [assumption|auto].
Qed.

(** No header name and no cell value of a returned row holds a comma or a
    line feed: the loader cannot carry a field with either in it. *)
Theorem loader_fields_hold_no_separator url text rows row k v :
  parseCsv url text = inr rows -> In row rows ->
  JsObject.own_get k row = Some v ->
  (~ In comma (list_ascii_of_string k)
   /\ ~ In newline (list_ascii_of_string k))
  /\ (~ In comma (list_ascii_of_string v)
      /\ ~ In newline (list_ascii_of_string v)).
Proof.
  unfold parseCsv. intros Hparse Hrow Hget.
  destruct (nth_error (textLines text) (headerLineIndex url))
    as [header|] eqn:Hh;
    [|unfold parseLines in Hparse; rewrite Hh in Hparse; discriminate].
  rewrite (parseLines_found _ _ _ Hh) in Hparse. injection Hparse as <-.
  apply collectRows_In in Hrow. destruct Hrow as (line & Hline & _ & ->).
  apply (In_skipn _ (S (headerLineIndex url))) in Hline.
  apply nth_error_In in Hh.
  apply buildRow_origin in Hget. destruct Hget as [Hk Hv].
  assert (Hfield : forall l f,
             In l (textLines text) -> In f (fields l) ->
             ~ In comma (list_ascii_of_string f)
             /\ ~ In newline (list_ascii_of_string f)).
  { intros l f Hl Hf. unfold fields in Hf. apply in_map_iff in Hf.
    destruct Hf as (raw & <- & Hraw).
    destruct (split_piece _ _ _ Hraw) as [Hcomma Hchars].
    destruct (split_piece _ _ _ Hl) as [Hnl _].
    split; intros Hc; apply cleanField_In in Hc; auto. }
  split; [exact (Hfield header k Hh Hk)|exact (Hfield line v Hline Hv)].
Qed.

Lemma loader_fields_hold_no_separator_witness :
  (~ In comma (list_ascii_of_string "a")
   /\ ~ In newline (list_ascii_of_string "a"))
  /\ (~ In comma (list_ascii_of_string "1")
      /\ ~ In newline (list_ascii_of_string "1")).
Proof.
  apply (loader_fields_hold_no_separator
           "data/world_500.csv" ("a,b" ++ lf ++ "1,2")%string
           [[("a", "1"); ("b", "2")]] [("a", "1"); ("b", "2")]).
  - reflexivity.
  - simpl. auto.
  - reflexivity.
Defined.

(** ** Substrings: the header offset and the names of the map *)

Lemma prefix_iff needle s :
  String.prefix needle s = true <-> exists b, s = (needle ++ b)%string.
Proof.
  revert s. induction needle as [|c needle IH]; intros s; simpl.
  - split; [intros _; now exists s|intros _; now destruct s].
  - destruct s as [|c' s].
    + split; [discriminate|intros [b Hb]; discriminate].
    + simpl. destruct (ascii_dec c c') as [->|Hne].
      * rewrite IH. split; intros [b Hb]; exists b; congruence.
      * split; [discriminate|]. intros [b Hb]. congruence.
Qed.

Lemma includes_unfold hay needle :
  includes hay needle
  = String.prefix needle hay
    || match hay with
       | EmptyString => false
       | String _ rest => includes rest needle
       end.
Proof. destruct hay; reflexivity. Qed.

Lemma includes_iff hay needle :
  includes hay needle = true
  <-> exists a b, hay = (a ++ needle ++ b)%string.
Proof.
  induction hay as [|c hay IH]; rewrite includes_unfold.
  - rewrite orb_false_r, prefix_iff. split.
    + intros [b Hb]. now exists "", b.
    + intros (a & b & Hab). destruct a; [now exists b|discriminate].
  - rewrite orb_true_iff, prefix_iff, IH. split.
    + intros [[b Hb]|(a & b & Hab)].
      * now exists "", b.
      * exists (String c a), b. simpl. now rewrite Hab.
    + intros (a & b & Hab). destruct a as [|c' a].
      * left. now exists b.
      * right. exists a, b. simpl in Hab. congruence.
Qed.

(** The header is looked for on the third line exactly for the URLs that
    hold the text summary.csv somewhere, in a directory name or a query
    as well; every other URL has its header on the first line. *)
Theorem headerLineIndex_by_substring url :
  (headerLineIndex url = 2
   <-> exists a b, url = (a ++ "summary.csv" ++ b)%string)
  /\ (headerLineIndex url = 0
      <-> ~ exists a b, url = (a ++ "summary.csv" ++ b)%string).
Proof.
  rewrite <- includes_iff. unfold headerLineIndex.
  destruct (includes url "summary.csv"); split; split;
    try reflexivity; try discriminate; congruence.
Qed.

(** A name that was rewritten is not rewritten again. *)
Theorem mapName_idempotent label : mapName (mapName label) = mapName label.
Proof.
  unfold mapName at 2 3.
  destruct (includes label "中国") eqn:E1; [reflexivity|].
  destruct (includes label "美国") eqn:E2; [reflexivity|].
  destruct (includes label "日本") eqn:E3; [reflexivity|].
  unfold mapName. now rewrite E1, E2, E3.
Qed.

(** A label that holds 中国 anywhere, such as the name of a region of the
    country, is counted on the map under China. *)
Theorem mapName_china_anywhere a b :
  mapName (a ++ "中国" ++ b)%string = "China".
Proof.
  unfold mapName.
  assert (H : includes (a ++ "中国" ++ b)%string "中国" = true)
    by (apply includes_iff; now exists a, b).
  now rewrite H.
Qed.

(** ** The accumulator of the counts *)

Lemma counted_iff k row :
  counted k row = true
  <-> cell "国家" row = Some k /\ k <> "" /\ k <> "__proto__".
Proof.
  unfold counted, carries.
  rewrite !andb_true_iff, !negb_true_iff.
  destruct (cell "国家" row) as [country|].
  - destruct (String.eqb_spec country k) as [->|Hne];
      destruct (String.eqb_spec k ""); destruct (String.eqb_spec k "__proto__");
      split; intros H; intuition congruence.
  - split; intros H; [intuition discriminate|]. destruct H. discriminate.
Qed.

Lemma countedRows_pos k data :
  countedRows k data <> 0
  <-> exists row, In row data /\ counted k row = true.
Proof.
  induction data as [|row data IH]; simpl.
  - split; [congruence|intros (row & [] & _)].
  - destruct (counted k row) eqn:E.
    + split; [intros _; exists row; auto|simpl; lia].
    + simpl. rewrite IH. split.
      * intros (r & Hin & Hc). exists r. auto.
      * intros (r & [<-|Hin] & Hc); [congruence|]. exists r. auto.
Qed.

Section Accumulator.
Variable sourceText : string -> string.

Lemma iter_bump_None k n own :
  Nat.iter n (bump sourceText k) own = None <-> n = 0 /\ own = None.
Proof.
  destruct n as [|n]; simpl.
  - tauto.
  - unfold bump at 1. split; [discriminate|]. intros [H _]. discriminate.
Qed.

Lemma countStep_keeps_keys acc row :
  NoDup (JsObject.own_keys acc) /\ ~ In "__proto__" (JsObject.own_keys acc) ->
  NoDup (JsObject.own_keys (countStep sourceText acc row))
  /\ ~ In "__proto__" (JsObject.own_keys (countStep sourceText acc row)).
Proof.
  intros H. unfold countStep.
  destruct (cell "国家" row) as [country|]; [|assumption].
  destruct (String.eqb country ""); [assumption|].
  now apply set_keeps_keys.
Qed.

Lemma fold_countStep_keeps_keys data :
  forall acc,
    NoDup (JsObject.own_keys acc)
    /\ ~ In "__proto__" (JsObject.own_keys acc) ->
    NoDup (JsObject.own_keys (fold_left (countStep sourceText) data acc))
    /\ ~ In "__proto__"
         (JsObject.own_keys (fold_left (countStep sourceText) data acc)).
Proof.
  induction data as [|row data IH]; simpl; intros acc H; [assumption|].
  apply IH. now apply countStep_keeps_keys.
Qed.

(** The keys of the counts are distinct, and they are the categories of
    the rows, the empty one and [__proto__] apart: no category is lost
    besides these two and none is made up. *)
Theorem countryCounts_keys data :
  NoDup (JsObject.own_keys (countryCounts sourceText data))
  /\ forall k,
       In k (JsObject.own_keys (countryCounts sourceText data))
       <-> (exists row, In row data /\ cell "国家" row = Some k)
           /\ k <> "" /\ k <> "__proto__".
Proof.
  split.
  - apply fold_countStep_keeps_keys. split; [constructor|intros []].
  - intros k. unfold countryCounts.
    assert (Hin : In k (JsObject.own_keys
                          (fold_left (countStep sourceText) data
                                     JsObject.empty))
                  <-> countedRows k data <> 0).
    { split.
      - intros Hk Hz. revert Hk. apply own_get_None_iff.
        rewrite fold_countStep_own_get, Hz. reflexivity.
      - intros Hn.
        destruct (in_dec string_dec k
                    (JsObject.own_keys
                       (fold_left (countStep sourceText) data
                                  JsObject.empty))) as [|Hnot];
          [assumption|].
        apply own_get_None_iff in Hnot.
        rewrite fold_countStep_own_get in Hnot.
        apply iter_bump_None in Hnot. tauto. }
    rewrite Hin, countedRows_pos. split.
    + intros (row & Hrow & Hc). apply counted_iff in Hc.
      split; [exists row|]; tauto.
    + intros ((row & Hrow & Hc) & Hk & Hp). exists row.
      split; [assumption|]. apply counted_iff. tauto.
Qed.

Lemma own_get_In (k : string) (v : jsval) (o : JsObject.t jsval) :
  JsObject.own_get k o = Some v -> In (k, v) o.
Proof.
  induction o as [|[k' v'] o IH]; simpl; [discriminate|].
  destruct (String.eqb_spec k k') as [->|_].
  - intros H. injection H as ->. now left.
  - intros H. right. auto.
Qed.

Lemma total_app o1 o2 : total (o1 ++ o2) = (total o1 + total o2)%N.
Proof.
  unfold total. induction o1 as [|kv o1 IH]; simpl; [reflexivity|].
  rewrite IH. lia.
Qed.

Lemma total_put_old k v v0 o :
  JsObject.own_get k o = Some v0 ->
  (total (JsObject.own_put k v o) + countOf v0 = total o + countOf v)%N.
Proof.
  induction o as [|[k' v'] o IH]; simpl; [discriminate|].
  destruct (String.eqb k k').
  - intros H. injection H as ->. unfold total. simpl. lia.
  - intros H. specialize (IH H). unfold total in *. simpl. lia.
Qed.

Lemma own_put_counts k v o :
  isCount v -> Forall (fun kv => isCount (snd kv)) o ->
  Forall (fun kv => isCount (snd kv)) (JsObject.own_put k v o).
Proof.
  intros Hv. induction 1 as [|[k' v'] o Hkv Ho IH]; simpl.
  - repeat constructor. exact Hv.
  - destruct (String.eqb k k'); constructor; simpl; assumption.
Qed.

Lemma inherited_false k :
  JsObject.inherited k = false ->
  k <> "__proto__" /\ inheritedValue k = VUndefined.
Proof.
  unfold JsObject.inherited, inheritedValue. intros H.
  apply orb_false_iff in H. destruct H as [Hp Hf]. rewrite Hp, Hf.
  split; [|reflexivity]. intros ->. discriminate.
Qed.

Lemma countStep_total acc row :
  match cell "国家" row with
  | Some country => JsObject.inherited country = false
  | None => True
  end ->
  Forall (fun kv => isCount (snd kv)) acc ->
  total (countStep sourceText acc row)
  = (total acc + (if categorised row then 1 else 0))%N
  /\ Forall (fun kv => isCount (snd kv)) (countStep sourceText acc row).
Proof.
  unfold countStep, categorised. intros Hplain Hacc.
  destruct (cell "国家" row) as [country|];
    [|split; [lia|assumption]].
  destruct (String.eqb country ""); simpl;
    [split; [lia|assumption]|].
  destruct (inherited_false _ Hplain) as [Hp Hund].
  unfold JsObject.set, getCount.
  destruct (String.eqb_spec country "__proto__") as [Heq|_];
    [contradiction|].
  destruct (JsObject.own_get country acc) as [v0|] eqn:Hget.
  - assert (Hv0 : isCount v0).
    { apply own_get_In in Hget. rewrite Forall_forall in Hacc.
      exact (Hacc _ Hget). }
    destruct Hv0 as (n & -> & Hn). simpl.
    destruct (N.eqb_spec n 0) as [Hz|_]; [contradiction|]. split.
    + pose proof (total_put_old country (VNumber (n + 1)) _ _ Hget) as H.
      simpl in H. lia.
    + apply own_put_counts; [|assumption]. exists (n + 1)%N. split; [reflexivity|lia].
  - rewrite Hund. simpl. rewrite own_put_new by assumption. split.
    + rewrite total_app. unfold total. simpl. lia.
    + apply Forall_app. split; [assumption|].
      repeat constructor. exists 1%N. split; [reflexivity|lia].
Qed.

Lemma fold_countStep_total data :
  plainCategories data ->
  forall acc,
    Forall (fun kv => isCount (snd kv)) acc ->
    total (fold_left (countStep sourceText) data acc)
    = (total acc + N.of_nat (List.length (filter categorised data)))%N
    /\ Forall (fun kv => isCount (snd kv))
              (fold_left (countStep sourceText) data acc).
Proof.
  induction 1 as [|row data Hrow _ IH]; simpl; intros acc Hacc.
  - split; [lia|assumption].
  - destruct (countStep_total acc row Hrow Hacc) as [Ht Hc].
    destruct (IH _ Hc) as [Ht' Hc']. split; [|assumption].
    rewrite Ht', Ht. destruct (categorised row); simpl; lia.
Qed.

(** When no category is a property name of [Object.prototype], every
    stored value is a number that is not zero, and the counts add up to
    the number of rows that have a category. *)
Theorem countryCounts_total data :
  plainCategories data ->
  total (countryCounts sourceText data)
  = N.of_nat (List.length (filter categorised data))
  /\ Forall (fun kv => isCount (snd kv)) (countryCounts sourceText data).
Proof.
  intros Hplain. unfold countryCounts.
  destruct (fold_countStep_total data Hplain JsObject.empty) as [Ht Hc];
    [constructor|].
  split; [rewrite Ht; reflexivity|assumption].
Qed.
End Accumulator.

Lemma countryCounts_total_witness :
  let data := [ [("国家", "中国")]; [("国家", "")]; [("国家", "美国")];
                [("公司", "Acme")]; [("国家", "中国")] ] in
  total (countryCounts (fun _ => "") data) = 3%N
  /\ Forall (fun kv => isCount (snd kv)) (countryCounts (fun _ => "") data).
Proof.
  apply (countryCounts_total
           (fun _ => "")
           [ [("国家", "中国")]; [("国家", "")]; [("国家", "美国")];
             [("公司", "Acme")]; [("国家", "中国")] ]).
  repeat constructor.
Defined.

Lemma countryCounts_plain_witness :
  JsObject.own_get "中国"
    (countryCounts (fun _ => "")
       [[("国家", "中国")]; [("国家", "美国")]; [("国家", "中国")]])
  = Some (VNumber 2).
Proof.
  apply (countryCounts_plain
           (fun _ => "") "中国"
           [[("国家", "中国")]; [("国家", "美国")]; [("国家", "中国")]]).
  - discriminate.
  - reflexivity.
Defined.

(** ** The series of the map *)

Section EntriesFacts.
Context {V : Type}.
Implicit Types (o : JsObject.t V).

Lemma insertIndexed_perm i (kv : string * V) l :
  Permutation (JsObject.insertIndexed i kv l) ((i, kv) :: l).
Proof.
  induction l as [|[j kv'] l IH]; simpl; [reflexivity|].
  destruct (i <? j)%N; [reflexivity|].
  rewrite IH. apply perm_swap.
Qed.

Lemma indexed_perm o :
  Permutation
    (map snd (JsObject.indexed o))
    (filter (fun kv => match JsObject.arrayIndex (fst kv) with
                       | Some _ => true
                       | None => false
                       end) o).
Proof.
  unfold JsObject.indexed.
  induction o as [|kv o IH]; simpl; [reflexivity|].
  destruct (JsObject.arrayIndex (fst kv)) as [i|]; [|exact IH].
  rewrite insertIndexed_perm. simpl. now constructor.
Qed.

Lemma filter_both_perm (f : string * V -> bool) o :
  Permutation (filter f o ++ filter (fun kv => negb (f kv)) o) o.
Proof.
  induction o as [|kv o IH]; simpl; [reflexivity|].
  destruct (f kv); simpl.
  - now constructor.
  - rewrite <- Permutation_middle. now constructor.
Qed.

(** [Object.entries] loses no property and makes none up: it lists the
    properties of the object, each one once. *)
Lemma entries_perm o : Permutation (JsObject.entries o) o.
Proof.
  unfold JsObject.entries. rewrite indexed_perm.
  rewrite <- (filter_both_perm
                (fun kv => match JsObject.arrayIndex (fst kv) with
                           | Some _ => true
                           | None => false
                           end) o) at 3.
  apply Permutation_app_head.
  match goal with
  | |- Permutation (filter ?f o) (filter ?g o) =>
      rewrite (filter_ext f g); [reflexivity|]
  end.
  intros kv. now destruct (JsObject.arrayIndex (fst kv)).
Qed.

(** Without a key that reads as an array index, the entries come in the
    order the properties were created. *)
Lemma entries_creation_order o :
  Forall (fun kv => JsObject.arrayIndex (fst kv) = None) o ->
  JsObject.entries o = o.
Proof.
  intros Hall. unfold JsObject.entries.
  assert (Hidx : JsObject.indexed o = []).
  { unfold JsObject.indexed.
    induction Hall as [|kv o Hkv _ IH]; simpl; [reflexivity|].
    now rewrite Hkv. }
  rewrite Hidx. simpl.
  induction Hall as [|kv o Hkv Ho IH]; simpl; [reflexivity|].
  rewrite Hkv. f_equal. apply IH.
  unfold JsObject.indexed in *. simpl in Hidx. now rewrite Hkv in Hidx.
Qed.
End EntriesFacts.

(** The series has exactly one item for each entry of the counts, made
    of the rewritten name of its key and of its own count: categories
    that get the same name on the map stay apart, their counts are not
    added up. *)
Theorem mapData_one_item_per_category counts :
  Permutation (mapData counts) (map itemOf counts)
  /\ List.length (mapData counts) = List.length counts.
Proof.
  unfold mapData. pose proof (entries_perm counts) as Hperm. split.
  - exact (Permutation_map itemOf Hperm).
  - rewrite length_map. now apply Permutation_length.
Qed.



(** The headers that read as array indices are enumerated first, in
    ascending order. *)
Example row_entries_index_first :
  JsObject.entries (buildRow ["2"; "b"; "0"] ["x"; "y"; "z"])
  = [("0", "z"); ("2", "x"); ("b", "y")].
Proof. reflexivity. Qed.

(** ** The order of the series *)

Lemma written_counted k row : counted k row = true <-> written row = Some k.
Proof.
  rewrite counted_iff. unfold written.
  destruct (cell "国家" row) as [country|].
  - destruct (String.eqb_spec country ""); destruct (String.eqb_spec country "__proto__");
      simpl; split; intros H;
      try (destruct H as (H1 & H2 & H3); injection H1 as ->; congruence);
      try discriminate; injection H as ->; auto.
  - split; [intros (H & _); discriminate|discriminate].
Qed.

Lemma own_get_existsb (k : string) (o : JsObject.t jsval) :
  existsb (String.eqb k) (JsObject.own_keys o)
  = match JsObject.own_get k o with
    | Some _ => true
    | None => false
    end.
Proof.
  unfold JsObject.own_keys. induction o as [|[k' v'] o IH]; simpl;
    [reflexivity|].
  now destruct (String.eqb k k').
Qed.

Lemma filter_comp (f g : string -> bool) l :
  filter f (filter g l) = filter (fun x => g x && f x) l.
Proof.
  induction l as [|x l IH]; simpl; [reflexivity|].
  destruct (g x); simpl; [destruct (f x)|]; now rewrite IH.
Qed.

Lemma filter_all (f : string -> bool) l :
  (forall x, f x = true) -> filter f l = l.
Proof.
  intros Hf. induction l as [|x l IH]; simpl; [reflexivity|].
  now rewrite Hf, IH.
Qed.

Lemma firstSeen_In l x : In x (firstSeen l) -> In x l.
Proof.
  induction l as [|k l IH]; simpl; [tauto|].
  intros [E|H]; [now left|]. apply filter_In in H. right. tauto.
Qed.

Section SeriesOrder.
Variable sourceText : string -> string.

Lemma countStep_keys acc row :
  JsObject.own_keys (countStep sourceText acc row)
  = match written row with
    | Some k =>
        if existsb (String.eqb k) (JsObject.own_keys acc)
        then JsObject.own_keys acc
        else JsObject.own_keys acc ++ [k]
    | None => JsObject.own_keys acc
    end.
Proof.
  unfold countStep, written.
  destruct (cell "国家" row) as [country|]; [|reflexivity].
  destruct (String.eqb country "") eqn:E; [reflexivity|]. simpl.
  unfold JsObject.set.
  destruct (String.eqb country "__proto__"); [reflexivity|].
  rewrite own_get_existsb.
  destruct (JsObject.own_get country acc) as [v|] eqn:Hget.
  - apply own_keys_put_old. congruence.
  - rewrite own_put_new by assumption.
    unfold JsObject.own_keys. now rewrite map_app.
Qed.

Lemma fold_countStep_keys data :
  forall acc,
    JsObject.own_keys (fold_left (countStep sourceText) data acc)
    = JsObject.own_keys acc
      ++ filter (unseen (JsObject.own_keys acc))
                (firstSeen (categories data)).
Proof.
  induction data as [|row data IH]; intros acc; simpl.
  - now rewrite app_nil_r.
  - rewrite IH, countStep_keys.
    destruct (written row) as [k|]; [|reflexivity]. simpl.
    unfold unseen at 2.
    destruct (existsb (String.eqb k) (JsObject.own_keys acc)) eqn:Hk; simpl.
    + f_equal. rewrite filter_comp. apply filter_ext. intros x.
      destruct (String.eqb_spec x k) as [->|_]; simpl; [|reflexivity].
      unfold unseen. now rewrite Hk.
    + rewrite <- app_assoc. simpl. do 2 f_equal.
      rewrite filter_comp. apply filter_ext. intros x.
      unfold unseen. rewrite existsb_app. simpl.
      rewrite orb_false_r, negb_orb. apply andb_comm.
Qed.

(** The keys of the counts stand in the order in which the categories
    first appear in the data; when none of them reads as an array index,
    the items of the series follow that order, each under its rewritten
    name. *)
Theorem mapData_first_appearance_order data :
  Forall (fun c => JsObject.arrayIndex c = None) (categories data) ->
  JsObject.own_keys (countryCounts sourceText data)
  = firstSeen (categories data)
  /\ mapData (countryCounts sourceText data)
     = map itemOf (countryCounts sourceText data)
  /\ map name (mapData (countryCounts sourceText data))
     = map mapName (firstSeen (categories data)).
Proof.
  intros Hidx.
  assert (Hkeys : JsObject.own_keys (countryCounts sourceText data)
                  = firstSeen (categories data)).
  { unfold countryCounts. rewrite fold_countStep_keys. simpl.
    now apply filter_all. }
  assert (Hitems : mapData (countryCounts sourceText data)
                   = map itemOf (countryCounts sourceText data)).
  { unfold mapData. rewrite entries_creation_order; [reflexivity|].
    apply Forall_forall. intros kv Hin.
    rewrite Forall_forall in Hidx. apply Hidx, firstSeen_In.
    rewrite <- Hkeys. unfold JsObject.own_keys. now apply in_map. }
  repeat apply conj; [exact Hkeys|exact Hitems|].
  rewrite Hitems, map_map. simpl. rewrite <- Hkeys.
  unfold JsObject.own_keys. now rewrite map_map.
Qed.
End SeriesOrder.

Lemma mapData_first_appearance_order_witness :
  let data := [ [("国家", "美国")]; [("国家", "中国")]; [("国家", "")];
                [("国家", "美国")]; [("国家", "日本")] ] in
  JsObject.own_keys (countryCounts (fun _ => "") data)
  = firstSeen (categories data)
  /\ mapData (countryCounts (fun _ => "") data)
     = map itemOf (countryCounts (fun _ => "") data)
  /\ map name (mapData (countryCounts (fun _ => "") data))
     = map mapName (firstSeen (categories data)).
Proof.
  apply (mapData_first_appearance_order
           (fun _ => "")
           [ [("国家", "美国")]; [("国家", "中国")]; [("国家", "")];
             [("国家", "美国")]; [("国家", "日本")] ]).
  repeat constructor.
Defined.

(** ** The two pipelines *)

(** The map pipeline fails only when the request does: its file has the
    header on the first line, which every text has. *)
Theorem drawMapChart_fails_only_on_fetch fetch sourceText e :
  drawMapChart fetch sourceText = inl e
  <-> fetch "data/world_500.csv" = None /\ e = NetworkError.
Proof.
  unfold drawMapChart, fetchCsvData, parseCsv, parseLines.
  destruct (fetch "data/world_500.csv") as [text|].
  - change (headerLineIndex "data/world_500.csv") with 0.
    pose proof (textLines_not_nil text) as Hne.
    destruct (textLines text) as [|header data]; [contradiction|].
    simpl. split; [discriminate|intros [H _]; discriminate].
  - split.
    + intros H. injection H as <-. auto.
    + intros [_ ->]. reflexivity.
Qed.

(** The bar pipeline fails when the request does, and with a TypeError
    when the trimmed text has fewer than three lines; it fails in no
    other case and with no other error. *)
Theorem drawBarChart_failures fetch e :
  drawBarChart fetch = inl e
  <-> (fetch "data/summary.csv" = None /\ e = NetworkError)
      \/ (exists text, fetch "data/summary.csv" = Some text
                       /\ List.length (textLines text) < 3
                       /\ e = TypeError).
Proof.
  unfold drawBarChart, fetchCsvData, parseCsv, parseLines.
  destruct (fetch "data/summary.csv") as [text|].
  - change (headerLineIndex "data/summary.csv") with 2. split.
    + intros H. right. exists text.
      destruct (textLines text) as [|l0 [|l1 [|header data]]];
        simpl in *; try discriminate;
        injection H as <-; repeat split; lia.
    + intros [[H _]|(text' & Ht & Hlen & ->)]; [discriminate|].
      injection Ht as <-.
      destruct (textLines text) as [|l0 [|l1 [|header data]]];
        simpl in *; try reflexivity; lia.
  - split.
    + intros H. injection H as <-. left. auto.
    + intros [[_ ->]|(text & Ht & _)]; [reflexivity|discriminate].
Qed.

(** The labels and the values handed to the bar chart are parallel: one
    of each per row of the file, in the order of the rows. *)
Theorem drawBarChart_parallel fetch labels rates :
  drawBarChart fetch = inr (labels, rates) ->
  exists data,
    fetchCsvData fetch "data/summary.csv" = inr data
    /\ List.length labels = List.length data
    /\ List.length rates = List.length data
    /\ forall i row, nth_error data i = Some row ->
         nth_error labels i = Some (cell "行业(个人观点)" row)
         /\ nth_error rates i = Some (profitRate row).
Proof.
  unfold drawBarChart.
  destruct (fetchCsvData fetch "data/summary.csv") as [e|data];
    [discriminate|].
  intros H. injection H as <- <-. exists data.
  unfold industries, avgProfitRates. rewrite !length_map.
  repeat apply conj; try reflexivity.
  - intros i row Hrow. rewrite !nth_error_map, Hrow. split; reflexivity.
Qed.

Lemma drawBarChart_parallel_witness :
  let fetch := fun _ : string =>
                 Some ("t" ++ lf ++ "u" ++ lf ++ "行业(个人观点),平均利润率"
                       ++ lf ++ "Tech,0.12")%string in
  exists data,
    fetchCsvData fetch "data/summary.csv" = inr data
    /\ List.length [Some "Tech"] = List.length data
    /\ List.length ["12.00"] = List.length data
    /\ forall i row, nth_error data i = Some row ->
         nth_error [Some "Tech"] i = Some (cell "行业(个人观点)" row)
         /\ nth_error ["12.00"] i = Some (profitRate row).
Proof.
  apply (drawBarChart_parallel
           (fun _ : string =>
              Some ("t" ++ lf ++ "u" ++ lf ++ "行业(个人观点),平均利润率"
                    ++ lf ++ "Tech,0.12")%string)
           [Some "Tech"] ["12.00"]).
  vm_compute. reflexivity.
Defined.

(** ** Rates that are no numbers, and blanks before a rate *)

Lemma trimStart_blank s : isBlank s = true -> trimStart s = "".
Proof.
  unfold isBlank, trimStart. intros H.
  destruct (dropWs false (list_ascii_of_string s)); [reflexivity|].
  discriminate.
Qed.

(** A row without the rate column, or with a rate cell that is empty or
    blank, gets the text NaN. *)
Theorem profitRate_missing_or_blank row :
  match cell "平均利润率" row with
  | Some s => isBlank s = true
  | None => True
  end ->
  profitRate row = "NaN".
Proof.
  unfold profitRate. destruct (cell "平均利润率" row) as [s|]; intros H.
  - simpl cellText. unfold JsNumber.parseFloat.
    now rewrite (trimStart_blank _ H).
  - vm_compute. reflexivity.
Qed.

Lemma profitRate_missing_or_blank_witness :
  profitRate [("行业(个人观点)", "Tech"); ("平均利润率", "")] = "NaN".
Proof.
  apply (profitRate_missing_or_blank
           [("行业(个人观点)", "Tech"); ("平均利润率", "")]).
  reflexivity.
Defined.

(** White space in front of a number, as a quoted cell can bring, is
    skipped by [parseFloat]. *)
Theorem parseFloat_skips_leading_blank w s :
  isBlank w = true ->
  JsNumber.parseFloat (w ++ s)%string = JsNumber.parseFloat s.
Proof.
  intros Hw. unfold JsNumber.parseFloat, trimStart.
  rewrite list_ascii_of_string_app, dropWs_blank_app; [reflexivity|].
  now apply isBlank_blank.
Qed.

Lemma parseFloat_skips_leading_blank_witness :
  JsNumber.parseFloat ("  " ++ "0.12")%string = JsNumber.parseFloat "0.12".
Proof.
  apply (parseFloat_skips_leading_blank "  " "0.12"). reflexivity.
Defined.

Lemma toFixed2_two_decimals_witness :
  exists whole frac,
    JsNumber.toFixed2 (S754_finite true 6192449487634432 (-50))
    = ((if true then "-" else "") ++ whole ++ "." ++ frac)%string
    /\ 1 <= String.length whole /\ String.length frac = 2.
Proof.
  apply (toFixed2_two_decimals true 6192449487634432 (-50)).
  vm_compute. reflexivity.
Defined.
